(** * HTTP request-line and response parsing (request_line.hpp, response.hpp)

    A shallow embedding of [http::Request_Line] and [http::Response] and of
    the part of [std::string] they use.  Strings are lists of characters,
    [std::size_t] is a 64-bit unsigned integer kept in [N] with its
    wrap-around written out, C++ exceptions are the [Throw] results of a
    small error monad, and a constructor that advances its argument returns
    the advanced buffer next to the object it built. *)

From Stdlib Require Import List Ascii String NArith Arith Bool Lia.
From Stdlib Require Import DecimalString.
From Stdlib Require DecimalN.
Import ListNotations.

Local Open Scope N_scope.

(** ** Exceptions *)

Inductive exn : Type :=
| out_of_range
| invalid_argument.

Inductive result (A : Type) : Type :=
| Ok (a : A)
| Throw (e : exn).

Arguments Ok {A} a.
Arguments Throw {A} e.

Definition bind {A B : Type} (r : result A) (k : A -> result B) : result B :=
  match r with
  | Ok a => k a
  | Throw e => Throw e
  end.

Notation "x <- r ;; k" := (bind r (fun x => k))
  (at level 61, r at next level, right associativity).

(** ** std::string *)

Module Std.

Definition string : Type := list ascii.

(** A literal without control characters. *)
Definition lit (s : String.string) : string := list_ascii_of_string s.

Definition HT : ascii := ascii_of_nat 9.
Definition LF : ascii := ascii_of_nat 10.
Definition VT : ascii := ascii_of_nat 11.
Definition FF : ascii := ascii_of_nat 12.
Definition CR : ascii := ascii_of_nat 13.
Definition SP : ascii := ascii_of_nat 32.

Definition CRLF : string := [CR; LF].

(** [std::size_t] on an LP64 target. *)
Definition size_t : Type := N.
Definition SIZE_MOD : N := 2 ^ 64.
Definition npos : size_t := SIZE_MOD - 1.

(** Unsigned addition as the machine does it. *)
Definition size_add (a b : size_t) : size_t := (a + b) mod SIZE_MOD.

Definition size (s : string) : size_t := N.of_nat (List.length s).

Definition empty (s : string) : bool :=
  match s with
  | [] => true
  | _ :: _ => false
  end.

Definition mem (c : ascii) (chars : string) : bool :=
  existsb (Ascii.eqb c) chars.

Fixpoint starts_with (pat s : string) : bool :=
  match pat, s with
  | [], _ => true
  | _ :: _, [] => false
  | p :: pat', c :: s' => Ascii.eqb p c && starts_with pat' s'
  end.

(** Index of the first position at which [pat] occurs. *)
Fixpoint find_index (pat s : string) : option nat :=
  if starts_with pat s then Some 0%nat
  else match s with
       | [] => None
       | _ :: s' => option_map S (find_index pat s')
       end.

(** Index of the first character satisfying [p]. *)
Fixpoint first_index (p : ascii -> bool) (s : string) : option nat :=
  match s with
  | [] => None
  | c :: s' => if p c then Some 0%nat else option_map S (first_index p s')
  end.

(** Index of the last character satisfying [p]. *)
Fixpoint last_index (p : ascii -> bool) (s : string) : option nat :=
  match s with
  | [] => None
  | c :: s' =>
      match last_index p s' with
      | Some i => Some (S i)
      | None => if p c then Some 0%nat else None
      end
  end.

Definition to_size_t (o : option nat) : size_t :=
  match o with
  | Some i => N.of_nat i
  | None => npos
  end.

(** [s.find(pat)] *)
Definition find (s pat : string) : size_t := to_size_t (find_index pat s).

(** [s.find_first_of(chars)] *)
Definition find_first_of (s chars : string) : size_t :=
  to_size_t (first_index (fun c => mem c chars) s).

(** [s.find_last_of(chars)] *)
Definition find_last_of (s chars : string) : size_t :=
  to_size_t (last_index (fun c => mem c chars) s).

(** [s.find_first_not_of(chars)] *)
Definition find_first_not_of (s chars : string) : size_t :=
  to_size_t (first_index (fun c => negb (mem c chars)) s).

(** [s.substr(pos, count)]: throws when [pos > size()], otherwise the
    characters of [[pos, pos + min(count, size() - pos))]. *)
Definition substr (s : string) (pos count : size_t) : result string :=
  if size s <? pos then Throw out_of_range
  else Ok (firstn (N.to_nat (N.min count (size s - pos)))
                  (skipn (N.to_nat pos) s)).

(** [s.substr(pos)], the count defaulted to [npos]. *)
Definition substr_from (s : string) (pos : size_t) : result string :=
  substr s pos npos.

(** *** std::stoul, base 10 *)

(** [unsigned long] and [unsigned] on an LP64 target. *)
Definition ULONG_MOD : N := 2 ^ 64.
Definition ULONG_MAX : N := ULONG_MOD - 1.
Definition UINT_MOD : N := 2 ^ 32.

(** [isspace] in the "C" locale. *)
Definition isspace (c : ascii) : bool :=
  let n := N_of_ascii c in (n =? 32) || ((9 <=? n) && (n <=? 13)).

Definition isdigit (c : ascii) : bool :=
  let n := N_of_ascii c in (48 <=? n) && (n <=? 57).

Definition digit_value (c : ascii) : N := N_of_ascii c - 48.

Fixpoint skip_space (s : string) : string :=
  match s with
  | c :: s' => if isspace c then skip_space s' else s
  | [] => []
  end.

Definition plus_sign : ascii := ascii_of_nat 43.
Definition minus_sign : ascii := ascii_of_nat 45.

(** The optional sign: whether the value is negated, and the rest. *)
Definition take_sign (s : string) : bool * string :=
  match s with
  | c :: s' =>
      if Ascii.eqb c minus_sign then (true, s')
      else if Ascii.eqb c plus_sign then (false, s')
      else (false, s)
  | [] => (false, [])
  end.

(** The leading decimal digits. *)
Fixpoint take_digits (s : string) : list N :=
  match s with
  | c :: s' => if isdigit c then digit_value c :: take_digits s' else []
  | [] => []
  end.

Definition digits_value (ds : list N) : N :=
  fold_left (fun acc d => 10 * acc + d) ds 0.

(** [std::stoul(s)]: [invalid_argument] when no digit is converted,
    [out_of_range] when the magnitude does not fit [unsigned long]; a leading
    minus sign negates the value in [unsigned long]. *)
Definition stoul (s : string) : result N :=
  let (neg, r) := take_sign (skip_space s) in
  match take_digits r with
  | [] => Throw invalid_argument
  | ds =>
      let v := digits_value ds in
      if ULONG_MAX <? v then Throw out_of_range
      else Ok (if neg then (ULONG_MOD - v) mod ULONG_MOD else v)
  end.

(** [static_cast<unsigned>] of an [unsigned long]. *)
Definition to_unsigned (v : N) : N := v mod UINT_MOD.

(** [std::to_string] of an unsigned value, as the stream inserter prints it. *)
Definition to_string (n : N) : string :=
  list_ascii_of_string (NilZero.string_of_uint (N.to_uint n)).

End Std.

Import Std.

(** ** Collaborator types of the request line *)

(** Modelled from the spec: methods.hpp is not part of the sources; a Method
    is constructible from a token string and prints as that token. *)
Definition Method : Type := Std.string.

Module method.
Definition GET : Method := lit "GET".
End method.

(** Modelled from the spec: the URI type is not part of the sources; a URI is
    constructible from a token string without normalization. *)
Definition URI : Type := Std.string.

(** Modelled from the spec: version.hpp is not part of the sources; a Version
    holds two [unsigned] fields, defaults to (1,1) and prints as
    HTTP/<major>.<minor>. *)
Record Version : Type := mkVersion {
  major : N;
  minor : N
}.

Definition Version_default : Version := mkVersion 1 1.

Definition Version_to_string (v : Version) : Std.string :=
  lit "HTTP/" ++ to_string (major v) ++ lit "." ++ to_string (minor v).

(** ** Request_Line *)

Record Request_Line : Type := mkRequest_Line {
  method_ : Method;
  uri_ : URI;
  version_ : Version
}.

(** The default member initializers: <GET / HTTP/1.1>. *)
Definition Request_Line_default : Request_Line :=
  mkRequest_Line method.GET (lit "/") (mkVersion 1 1).

Definition trim_chars : Std.string := [FF; HT; VT; SP].

(** [Request_Line::Request_Line(Request&& request)].  The result is the
    constructed object together with [request] as the constructor leaves
    it; a [Throw] leaves no object. *)
Definition Request_Line_parse (request : Std.string)
  : result (Request_Line * Std.string) :=
  if empty request || (size request <? 16) then
    Ok (Request_Line_default, request)
  else
    start <- substr_from request (find_first_not_of request trim_chars) ;;
    rl <- substr start 0 (find start CRLF) ;;
    method <- substr rl 0 (find_first_of rl [SP]) ;;
    rl <- substr_from rl (size_add (find_first_of rl [SP]) 1) ;;
    uri <- substr rl 0 (find_last_of rl [SP]) ;;
    rl <- substr_from rl (size_add (find_last_of rl [SP]) 1) ;;
    major <- substr rl (size_add (find rl (lit "/")) 1) (find rl (lit ".")) ;;
    minor <- substr_from rl (size_add (find rl (lit ".")) 1) ;;
    maj <- stoul major ;;
    min <- stoul minor ;;
    request' <- substr_from request (size_add (find request CRLF) 2) ;;
    Ok (mkRequest_Line method uri (mkVersion (to_unsigned maj) (to_unsigned min)),
        request').

(** [Request_Line::operator std::string] and [to_string]. *)
Definition Request_Line_to_string (r : Request_Line) : Std.string :=
  method_ r ++ lit " " ++ uri_ r ++ lit " " ++ Version_to_string (version_ r) ++ CRLF.

(** ** The version stage (request_line.hpp, lines 164-170) on its own *)

Definition parse_version (rl : Std.string) : result Version :=
  major <- substr rl (size_add (find rl (lit "/")) 1) (find rl (lit ".")) ;;
  minor <- substr_from rl (size_add (find rl (lit ".")) 1) ;;
  maj <- stoul major ;;
  min <- stoul minor ;;
  Ok (mkVersion (to_unsigned maj) (to_unsigned min)).

(** ** Response *)

(** Modelled from the spec: the status codes and the Limit type are not part
    of the sources; OK is 200 and a limit is a field count. *)
Definition status_t : Type := N.
Definition OK : status_t := 200.

Definition Limit : Type := N.

(** Modelled from the spec: status_line.hpp is not part of the sources; of
    the Status_line only the version and the code, which the Response
    initializes, reads and sets, are kept. *)
Record Status_line : Type := mkStatus_line {
  sl_version : Version;
  sl_code : status_t
}.

Definition set_code (sl : Status_line) (code : status_t) : Status_line :=
  mkStatus_line (sl_version sl) code.

(** Modelled from the spec: message.hpp is not part of the sources; a Message
    owns the header fields (insertion order, bounded by a limit that defaults
    to 100) and the body, a byte sequence assigned from a substring. *)
Record Message : Type := mkMessage {
  header_fields : list (Std.string * Std.string);
  message_body : Std.string;
  field_limit : Limit
}.

Definition Message_ctor (limit : Limit) : Message := mkMessage [] [] limit.

Definition Message_default : Message := Message_ctor 100.

(** Modelled from the spec: [Message::add_body] assigns the body. *)
Definition add_body (m : Message) (body : Std.string) : Message :=
  mkMessage (header_fields m) body (field_limit m).

(** Modelled from the spec: [Message::reset] clears headers and body. *)
Definition Message_reset (m : Message) : Message :=
  mkMessage [] [] (field_limit m).

Record Response : Type := mkResponse {
  message : Message;
  status_line_ : Status_line
}.

(** [Response::Response(const Code code = OK, const Version version = Version{})] *)
Definition Response_ctor (code : status_t) (version : Version) : Response :=
  mkResponse Message_default (mkStatus_line version code).

Definition Response_default : Response := Response_ctor OK Version_default.

Definition status_code (r : Response) : status_t := sl_code (status_line_ r).

Definition set_status_code (r : Response) (code : status_t) : Response :=
  mkResponse (message r) (set_code (status_line_ r) code).

(** [Response::reset]: [Message::reset()] and then [set_status_code(OK)]. *)
Definition Response_reset (r : Response) : Response :=
  set_status_code (mkResponse (Message_reset (message r)) (status_line_ r)) OK.

Definition CRLFCRLF : Std.string := CRLF ++ CRLF.
Definition LFLF : Std.string := [LF; LF].

(** [Response::Response(Egress&& response, const Limit limit)].  The
    status-line constructor and [Message::add_headers] are not part of the
    sources: each receives the buffer, may advance it and may throw. *)
Definition Response_parse
    (Status_line_parse : Std.string -> result (Status_line * Std.string))
    (add_headers : Message -> Std.string -> result (Message * Std.string))
    (response : Std.string) (limit : Limit) : result Response :=
  let base := Message_ctor limit in
  sl <- Status_line_parse response ;;
  hd <- add_headers base (snd sl) ;;
  let msg := fst hd in
  let response := snd hd in
  let start_of_body := find response CRLFCRLF in
  if negb (start_of_body =? npos) then
    body <- substr_from response (size_add start_of_body 4) ;;
    Ok (mkResponse (add_body msg body) (fst sl))
  else
    let start_of_body := find response LFLF in
    if negb (start_of_body =? npos) then
      body <- substr_from response (size_add start_of_body 2) ;;
      Ok (mkResponse (add_body msg body) (fst sl))
    else
      Ok (mkResponse msg (fst sl)).

(** ** Vocabulary of the statements *)

(** [max_size()] keeps every index below [npos]. *)
Definition fits (s : Std.string) : Prop := size s < npos.

Definition SLASH : ascii := ascii_of_nat 47.
Definition DOT : ascii := ascii_of_nat 46.

(** [s = h ++ pat ++ b] with no occurrence of [pat] starting earlier. *)
Definition first_occurrence (pat s h b : Std.string) : Prop :=
  s = h ++ pat ++ b /\
  forall h' b', s = h' ++ pat ++ b' -> (List.length h <= List.length h')%nat.

Definition no_occurrence (pat s : Std.string) : Prop :=
  forall h b, s <> h ++ pat ++ b.

(** A request line of the canonical shape: method, space, URI, space,
    version token. *)
Definition shape_line (m u vt : Std.string) : Std.string :=
  m ++ SP :: u ++ SP :: vt.

(** The line, its terminator and what follows. *)
Definition shape_request (m u vt rest : Std.string) : Std.string :=
  shape_line m u vt ++ CRLF ++ rest.

(** A version token of the shape prefix/major.minor. *)
Definition version_token (p maj mn : Std.string) : Std.string :=
  p ++ SLASH :: maj ++ DOT :: mn.

(** The request is of the canonical shape and long enough to pass the guard:
    the method starts with a character that is not trimmed and has no space
    or carriage return, the URI has no carriage return, the version token has
    no space or carriage return. *)
Definition canonical (m u vt rest : Std.string) : Prop :=
  (16 <= List.length (shape_request m u vt rest))%nat /\
  fits (shape_request m u vt rest) /\
  match m with c :: _ => mem c trim_chars | [] => true end = false /\
  mem SP m = false /\ mem CR m = false /\
  mem CR u = false /\
  mem SP vt = false /\ mem CR vt = false.

(** The first slash ends the prefix and the first dot ends the major text. *)
Definition positional (p maj : Std.string) : Prop :=
  mem SLASH p = false /\ mem DOT p = false /\ mem DOT maj = false.



(** A character at which every phase of [stoul] stops. *)
Definition stops_number (x : ascii) : bool :=
  negb (isspace x) && negb (isdigit x)
  && negb (Ascii.eqb x plus_sign) && negb (Ascii.eqb x minus_sign).


(** The digits of a decimal numeral, most significant first, as values and
    as characters. *)
Fixpoint uint_digits (d : Decimal.uint) : list N :=
  match d with
  | Decimal.Nil => []
  | Decimal.D0 l => 0 :: uint_digits l
  | Decimal.D1 l => 1 :: uint_digits l
  | Decimal.D2 l => 2 :: uint_digits l
  | Decimal.D3 l => 3 :: uint_digits l
  | Decimal.D4 l => 4 :: uint_digits l
  | Decimal.D5 l => 5 :: uint_digits l
  | Decimal.D6 l => 6 :: uint_digits l
  | Decimal.D7 l => 7 :: uint_digits l
  | Decimal.D8 l => 8 :: uint_digits l
  | Decimal.D9 l => 9 :: uint_digits l
  end.

Definition uint_chars (d : Decimal.uint) : Std.string :=
  list_ascii_of_string (NilEmpty.string_of_uint d).

(** ** The rest of request_line.hpp and response.hpp *)

(** Lines 156-162 and the version stage on their own: the isolated line to
    the three fields. *)
Definition Request_Line_tokens (rl : Std.string) : result Request_Line :=
  method <- substr rl 0 (find_first_of rl [SP]) ;;
  rl <- substr_from rl (size_add (find_first_of rl [SP]) 1) ;;
  uri <- substr rl 0 (find_last_of rl [SP]) ;;
  rl <- substr_from rl (size_add (find_last_of rl [SP]) 1) ;;
  v <- parse_version rl ;;
  Ok (mkRequest_Line method uri v).

Definition get_method (r : Request_Line) : Method := method_ r.

Definition set_method (r : Request_Line) (method : Method) : Request_Line :=
  mkRequest_Line method (uri_ r) (version_ r).

Definition get_uri (r : Request_Line) : URI := uri_ r.

Definition set_uri (r : Request_Line) (uri : URI) : Request_Line :=
  mkRequest_Line (method_ r) uri (version_ r).

Definition get_version (r : Request_Line) : Version := version_ r.

Definition set_version (r : Request_Line) (version : Version) : Request_Line :=
  mkRequest_Line (method_ r) (uri_ r) version.

(** The header set as the range-for of [operator <<] walks it. *)
Definition Header_set : Type := list (Std.string * Std.string).

(** [res.add_header(name, value)]: [Message::add_header] is not part of the
    sources and is taken as it comes: it leaves a Message and may throw.
    Being a member of the base class it reaches the Message only.  The
    Response is updated in place, so it is part of the outcome also when an
    exception leaves the call. *)
Definition Response_add_header
    (add_header : Message -> Std.string -> Std.string -> Message * option exn)
    (res : Response) (name value : Std.string) : Response * option exn :=
  let (m, e) := add_header (message res) name value in
  (mkResponse m (status_line_ res), e).

(** [operator << (Response& res, const Header_set& headers)]: the loop stops
    at the first exception. *)
Fixpoint Response_append
    (add_header : Message -> Std.string -> Std.string -> Message * option exn)
    (res : Response) (headers : Header_set) : Response * option exn :=
  match headers with
  | [] => (res, None)
  | field :: headers' =>
      match Response_add_header add_header res (fst field) (snd field) with
      | (res', Some e) => (res', Some e)
      | (res', None) => Response_append add_header res' headers'
      end
  end.

(** [Response::to_string] and [operator std::string]: the status line and
    then [Message::to_string()], both printed by code outside the sources. *)
Definition Response_to_string
    (Status_line_to_string : Status_line -> Std.string)
    (Message_to_string : Message -> Std.string)
    (r : Response) : Std.string :=
  Status_line_to_string (status_line_ r) ++ Message_to_string (message r).

(** Text that is empty or starts with a character that is not a digit. *)
Definition not_digit_led (j : Std.string) : bool :=
  match j with
  | [] => true
  | x :: _ => negb (isdigit x)
  end.

(** The first character, if any, is not one the constructor trims. *)
Definition not_trim_led (s : Std.string) : bool :=
  match s with
  | [] => true
  | c :: _ => negb (mem c trim_chars)
  end.

(** ** The texts of the version stage *)




(** ** The status-line constructor *)

(** Modelled from the spec: status_line.hpp is not part of the sources.  The
    status-line constructor applies the discipline of the request line to
    VERSION CODE REASON: the 16-byte guard that leaves the default (HTTP/1.1,
    200) and the buffer alone, the trim, the line up to the first CRLF, the
    version token up to the first space, the code up to the next one, the
    version read as prefix/major.minor and the code by the numeric parser,
    and the line with its terminator removed from the caller's buffer. *)
Definition Status_line_of_buffer (response : Std.string)
  : result (Status_line * Std.string) :=
  if empty response || (size response <? 16) then
    Ok (mkStatus_line Version_default OK, response)
  else
    start <- substr_from response (find_first_not_of response trim_chars) ;;
    sl <- substr start 0 (find start CRLF) ;;
    version <- substr sl 0 (find_first_of sl [SP]) ;;
    sl <- substr_from sl (size_add (find_first_of sl [SP]) 1) ;;
    code <- substr sl 0 (find_first_of sl [SP]) ;;
    v <- parse_version version ;;
    c <- stoul code ;;
    response' <- substr_from response (size_add (find response CRLF) 2) ;;
    Ok (mkStatus_line v (to_unsigned c), response').

(** ** Facts about the std::string model *)

Lemma mem_single (c d : ascii) : mem c [d] = Ascii.eqb c d.
Proof. unfold mem; simpl. apply orb_false_r. Qed.

Lemma mem_cons_false (c d : ascii) (s : Std.string) :
  mem c (d :: s) = false -> c <> d /\ mem c s = false.
Proof.
  unfold mem; simpl. intros H. apply orb_false_iff in H as [H1 H2].
  split; [now apply Ascii.eqb_neq | exact H2].
Qed.

Lemma mem_app_false (c : ascii) (a b : Std.string) :
  mem c (a ++ b) = false <-> mem c a = false /\ mem c b = false.
Proof. unfold mem. rewrite existsb_app. apply orb_false_iff. Qed.

Lemma first_index_none (p : ascii -> bool) (s : Std.string) :
  forallb (fun c => negb (p c)) s = true -> first_index p s = None.
Proof.
  induction s as [|c s IH]; simpl; [reflexivity|].
  intros H. apply andb_true_iff in H as [Hc Hs].
  apply negb_true_iff in Hc. rewrite Hc, (IH Hs). reflexivity.
Qed.

Lemma first_index_hit (p : ascii -> bool) (a : Std.string) (c : ascii) (b : Std.string) :
  forallb (fun c => negb (p c)) a = true -> p c = true ->
  first_index p (a ++ c :: b) = Some (List.length a).
Proof.
  intros Ha Hc. induction a as [|x a IH]; simpl.
  - now rewrite Hc.
  - simpl in Ha. apply andb_true_iff in Ha as [Hx Ha].
    apply negb_true_iff in Hx. rewrite Hx, (IH Ha). reflexivity.
Qed.

Lemma last_index_none (p : ascii -> bool) (s : Std.string) :
  forallb (fun c => negb (p c)) s = true -> last_index p s = None.
Proof.
  induction s as [|c s IH]; simpl; [reflexivity|].
  intros H. apply andb_true_iff in H as [Hc Hs].
  apply negb_true_iff in Hc. rewrite Hc, (IH Hs). reflexivity.
Qed.

Lemma last_index_hit (p : ascii -> bool) (a : Std.string) (c : ascii) (b : Std.string) :
  p c = true -> forallb (fun c => negb (p c)) b = true ->
  last_index p (a ++ c :: b) = Some (List.length a).
Proof.
  intros Hc Hb. induction a as [|x a IH]; simpl.
  - now rewrite (last_index_none p b Hb), Hc.
  - now rewrite IH.
Qed.

Lemma mem_false_forallb (c : ascii) (s : Std.string) :
  mem c s = false -> forallb (fun x => negb (mem x [c])) s = true.
Proof.
  induction s as [|x s IH]; cbn [forallb]; [reflexivity|].
  intros H. apply mem_cons_false in H as [Hx Hs].
  rewrite mem_single, (IH Hs), andb_true_r.
  apply negb_true_iff, Ascii.eqb_neq. congruence.
Qed.

Lemma starts_with_app (pat b : Std.string) : starts_with pat (pat ++ b) = true.
Proof.
  induction pat as [|p pat IH]; simpl; [reflexivity|].
  now rewrite Ascii.eqb_refl, IH.
Qed.

Lemma starts_with_split (pat s : Std.string) :
  starts_with pat s = true -> exists b, s = pat ++ b.
Proof.
  revert s. induction pat as [|p pat IH]; intros s H; simpl in *.
  - now exists s.
  - destruct s as [|c s]; [discriminate|].
    apply andb_true_iff in H as [Hpc Hs].
    apply Ascii.eqb_eq in Hpc. subst c.
    destruct (IH s Hs) as [b ->]. now exists b.
Qed.

Lemma find_index_eq (pat s : Std.string) :
  find_index pat s =
  if starts_with pat s then Some 0%nat
  else match s with
       | [] => None
       | _ :: s' => option_map S (find_index pat s')
       end.
Proof. destruct s; reflexivity. Qed.


Lemma find_index_hit_head (p : ascii) (pat a b : Std.string) :
  mem p a = false ->
  find_index (p :: pat) (a ++ (p :: pat) ++ b) = Some (List.length a).
Proof.
  induction a as [|c a IH]; intros H.
  - rewrite app_nil_l, find_index_eq. now rewrite (starts_with_app (p :: pat) b).
  - apply mem_cons_false in H as [Hc Hs].
    rewrite <- app_comm_cons, find_index_eq. cbn [starts_with List.length].
    apply Ascii.eqb_neq in Hc. rewrite Hc. cbn [andb].
    now rewrite (IH Hs).
Qed.

(** [find_index] returns the least position of an occurrence. *)
Lemma find_index_Some (pat s : Std.string) (i : nat) :
  find_index pat s = Some i ->
  exists h b, s = h ++ pat ++ b /\ List.length h = i /\
    forall h' b', s = h' ++ pat ++ b' -> (i <= List.length h')%nat.
Proof.
  revert i. induction s as [|c s IH]; intros i H.
  - cbn [find_index] in H.
    destruct (starts_with pat []) eqn:E; [|discriminate].
    injection H as <-. apply starts_with_split in E as [b E].
    exists [], b. repeat split; [exact E | intros; apply Nat.le_0_l].
  - cbn [find_index] in H.
    destruct (starts_with pat (c :: s)) eqn:E.
    + injection H as <-. apply starts_with_split in E as [b E].
      exists [], b. repeat split; [exact E | intros; apply Nat.le_0_l].
    + destruct (find_index pat s) as [j|] eqn:F; [|discriminate].
      injection H as <-.
      destruct (IH j eq_refl) as (h & b & -> & Hl & Hmin).
      exists (c :: h), b. repeat split; [simpl; now rewrite Hl|].
      intros [|x h'] b' E'.
      * simpl in E'. rewrite E' in E. now rewrite starts_with_app in E.
      * simpl in E'. injection E' as _ E'. simpl. apply le_n_S. now apply (Hmin h' b').
Qed.

Lemma find_index_None (pat s : Std.string) :
  find_index pat s = None -> forall h b, s <> h ++ pat ++ b.
Proof.
  induction s as [|c s IH]; intros H h b E.
  - cbn [find_index] in H.
    destruct (starts_with pat []) eqn:S0; [discriminate|].
    destruct h; [|discriminate]. simpl in E. rewrite E in S0.
    now rewrite starts_with_app in S0.
  - cbn [find_index] in H.
    destruct (starts_with pat (c :: s)) eqn:S0; [discriminate|].
    destruct (find_index pat s) eqn:F; [discriminate|].
    destruct h as [|x h].
    + simpl in E. rewrite E in S0. now rewrite starts_with_app in S0.
    + simpl in E. injection E as _ E. exact (IH eq_refl h b E).
Qed.

Lemma npos_val : npos = 18446744073709551615.
Proof. reflexivity. Qed.

Lemma size_app (a b : Std.string) : size (a ++ b) = size a + size b.
Proof. unfold size. rewrite List.length_app. lia. Qed.

Lemma size_cons (c : ascii) (s : Std.string) : size (c :: s) = 1 + size s.
Proof. unfold size. cbn [List.length]. lia. Qed.

Lemma fits_app_l (a b : Std.string) : fits (a ++ b) -> fits a.
Proof. unfold fits. rewrite size_app. lia. Qed.

Lemma fits_app_r (a b : Std.string) : fits (a ++ b) -> fits b.
Proof. unfold fits. rewrite size_app. lia. Qed.

Lemma snoc_app (a : Std.string) (x : ascii) (b : Std.string) :
  a ++ x :: b = (a ++ [x]) ++ b.
Proof. now rewrite <- app_assoc. Qed.

Lemma firstn_length_app (a b : Std.string) : firstn (List.length a) (a ++ b) = a.
Proof. induction a as [|c a IH]; simpl; [reflexivity | now rewrite IH]. Qed.

Lemma skipn_length_app (a b : Std.string) : skipn (List.length a) (a ++ b) = b.
Proof. induction a as [|c a IH]; simpl; [reflexivity | exact IH]. Qed.

(** [substr] at the end of a known prefix. *)
Lemma substr_at (a b : Std.string) (count : size_t) :
  substr (a ++ b) (size a) count
  = Ok (firstn (N.to_nat (N.min count (size b))) b).
Proof.
  unfold substr. rewrite size_app.
  replace (size a + size b <? size a) with false by (symmetry; apply N.ltb_ge; lia).
  replace (size a + size b - size a) with (size b) by lia.
  replace (N.to_nat (size a)) with (List.length a) by (unfold size; now rewrite Nat2N.id).
  now rewrite skipn_length_app.
Qed.

Lemma substr_prefix (a b : Std.string) : substr (a ++ b) 0 (size a) = Ok a.
Proof.
  change (substr (a ++ b) 0 (size a)) with (substr ([] ++ a ++ b) (size []) (size a)).
  rewrite substr_at, size_app.
  replace (N.min (size a) (size a + size b)) with (size a) by lia.
  unfold size. now rewrite Nat2N.id, firstn_length_app.
Qed.

Lemma substr_all (s : Std.string) : fits s -> substr s 0 npos = Ok s.
Proof.
  intros H.
  change (substr s 0 npos) with (substr ([] ++ s) (size []) npos).
  rewrite substr_at. unfold fits in H.
  replace (N.min npos (size s)) with (size s) by lia.
  unfold size. now rewrite Nat2N.id, firstn_all.
Qed.

Lemma substr_drop (a b : Std.string) :
  fits (a ++ b) -> substr_from (a ++ b) (size a) = Ok b.
Proof.
  intros H. apply fits_app_r in H. unfold substr_from. rewrite substr_at.
  unfold fits in H.
  replace (N.min npos (size b)) with (size b) by lia.
  unfold size. now rewrite Nat2N.id, firstn_all.
Qed.

Lemma size_add_small (a b : size_t) : a + b <= npos -> size_add a b = a + b.
Proof.
  intros H. unfold size_add. apply N.mod_small.
  rewrite npos_val in H. change SIZE_MOD with 18446744073709551616. lia.
Qed.

Lemma size_add_npos_1 : size_add npos 1 = 0.
Proof. reflexivity. Qed.

Lemma size_add_npos_2 : size_add npos 2 = 1.
Proof. reflexivity. Qed.

Lemma bind_Ok {A B : Type} (a : A) (k : A -> result B) : bind (Ok a) k = k a.
Proof. reflexivity. Qed.

(** ** The constructor on a request of the canonical shape

    The method has no space, carriage return or leading trim character, the
    URI has no carriage return and the version token has no space or carriage
    return.  The constructor then finds each field where the shape puts it,
    whatever the URI has in spaces. *)

Section Shape.

Variables (c : ascii) (m' u vt rest : Std.string).

Local Abbreviation m := (c :: m').
Local Abbreviation line := (shape_line m u vt).
Local Abbreviation buf := (shape_request m u vt rest).

Hypothesis Hlen : (16 <= List.length buf)%nat.
Hypothesis Hfits : fits buf.
Hypothesis Hc : mem c trim_chars = false.
Hypothesis Hm_sp : mem SP m = false.
Hypothesis Hm_cr : mem CR m = false.
Hypothesis Hu_cr : mem CR u = false.
Hypothesis Hvt_sp : mem SP vt = false.
Hypothesis Hvt_cr : mem CR vt = false.

Lemma shape_guard : empty buf || (size buf <? 16) = false.
Proof.
  unfold shape_request, shape_line in *. cbn [app empty orb].
  apply N.ltb_ge. unfold size. cbn [app] in Hlen. lia.
Qed.

Lemma shape_line_cr : mem CR line = false.
Proof.
  unfold shape_line. apply mem_app_false. split; [exact Hm_cr|].
  change (SP :: u ++ SP :: vt) with ([SP] ++ u ++ [SP] ++ vt).
  repeat (apply mem_app_false; split); auto.
Qed.

Lemma shape_start : substr_from buf (find_first_not_of buf trim_chars) = Ok buf.
Proof.
  unfold find_first_not_of. unfold shape_request at 2. unfold shape_line. cbn [app first_index].
  rewrite Hc. cbn [negb to_size_t N.of_nat]. now apply substr_all.
Qed.

Lemma shape_find_crlf : find buf CRLF = size line.
Proof.
  unfold find, shape_request, CRLF. now rewrite (find_index_hit_head CR [LF] line rest shape_line_cr).
Qed.

Lemma shape_find_sp : find_first_of line [SP] = size m.
Proof.
  unfold find_first_of, shape_line.
  rewrite first_index_hit; [reflexivity | | reflexivity].
  now rewrite (mem_false_forallb SP m Hm_sp).
Qed.

Lemma shape_find_last_sp : find_last_of (u ++ SP :: vt) [SP] = size u.
Proof.
  unfold find_last_of.
  rewrite last_index_hit; [reflexivity | reflexivity |].
  now rewrite (mem_false_forallb SP vt Hvt_sp).
Qed.

Lemma shape_parse :
  Request_Line_parse buf
  = v <- parse_version vt ;; Ok (mkRequest_Line m u v, rest).
Proof.
  assert (Hl : fits line) by (exact (fits_app_l _ _ Hfits)).
  assert (Hr : fits (u ++ SP :: vt)).
  { unfold shape_line in Hl. rewrite (snoc_app m SP) in Hl. exact (fits_app_r _ _ Hl). }
  assert (Hn : size line + 2 <= npos).
  { unfold fits, shape_request in Hfits.
    rewrite !size_app in Hfits. change (size CRLF) with 2 in Hfits. lia. }
  assert (Hb : buf = (line ++ CRLF) ++ rest) by (unfold shape_request; apply app_assoc).
  unfold Request_Line_parse. rewrite shape_guard, shape_start, bind_Ok.
  rewrite shape_find_crlf.
  rewrite (size_add_small (size line) 2) by exact Hn.
  replace (size line + 2) with (size (line ++ CRLF))
    by (rewrite (size_app line CRLF); reflexivity).
  replace (substr_from buf (size (line ++ CRLF))) with (@Ok Std.string rest)
    by (rewrite Hb; symmetry; apply substr_drop; rewrite <- Hb; exact Hfits).
  unfold shape_request at 1. rewrite (substr_prefix line), bind_Ok.
  rewrite shape_find_sp.
  unfold shape_line at 1. rewrite (substr_prefix m), bind_Ok.
  rewrite (size_add_small (size m) 1)
    by (unfold shape_line in Hn; rewrite size_app in Hn; lia).
  replace (size m + 1) with (size (m ++ [SP])) by (rewrite size_app; reflexivity).
  unfold shape_line. rewrite (snoc_app m SP).
  rewrite (substr_drop (m ++ [SP])), bind_Ok
    by (rewrite <- snoc_app; exact Hl).
  rewrite shape_find_last_sp, (substr_prefix u), bind_Ok.
  rewrite (size_add_small (size u) 1)
    by (unfold fits in Hr; rewrite size_app, size_cons in Hr; lia).
  replace (size u + 1) with (size (u ++ [SP])) by (rewrite size_app; reflexivity).
  rewrite (snoc_app u SP).
  rewrite (substr_drop (u ++ [SP])), bind_Ok by (rewrite <- snoc_app; exact Hr).
  unfold parse_version.
  destruct (substr vt _ _) as [major|e]; [|reflexivity]. rewrite !bind_Ok.
  destruct (substr_from vt _) as [minor|e]; [|reflexivity]. rewrite !bind_Ok.
  destruct (stoul major) as [maj|e]; [|reflexivity]. rewrite !bind_Ok.
  destruct (stoul minor) as [min|e]; reflexivity.
Qed.

End Shape.

(** ** Facts about stoul *)

Lemma take_digits_stop (a : Std.string) (x : ascii) (r : Std.string) :
  isdigit x = false -> take_digits (a ++ x :: r) = take_digits a.
Proof.
  intros Hx. induction a as [|d a IH]; cbn [app take_digits].
  - now rewrite Hx.
  - destruct (isdigit d); [now rewrite IH | reflexivity].
Qed.

Lemma stoul_stop (a : Std.string) (x : ascii) (r : Std.string) :
  stops_number x = true -> stoul (a ++ x :: r) = stoul a.
Proof.
  unfold stops_number. intros H.
  apply andb_true_iff in H as [H Hminus].
  apply andb_true_iff in H as [H Hplus].
  apply andb_true_iff in H as [Hsp Hdg].
  apply negb_true_iff in Hsp, Hdg, Hplus, Hminus.
  unfold stoul. induction a as [|d a IH].
  - cbn [app skip_space take_sign]. rewrite Hsp. cbn [take_sign].
    rewrite Hminus, Hplus. cbn [take_digits]. now rewrite Hdg.
  - cbn [app skip_space]. destruct (isspace d) eqn:Ed; [exact IH|].
    cbn [take_sign].
    destruct (Ascii.eqb d minus_sign); [now rewrite take_digits_stop|].
    destruct (Ascii.eqb d plus_sign); [now rewrite take_digits_stop|].
    change (d :: a ++ x :: r) with ((d :: a) ++ x :: r).
    now rewrite (take_digits_stop (d :: a)).
Qed.



Lemma digit_not_space (d : ascii) : isdigit d = true -> isspace d = false.
Proof.
  unfold isdigit, isspace. cbv zeta. intros H.
  apply andb_true_iff in H as [H1 H2].
  apply N.leb_le in H1. apply N.leb_le in H2.
  apply orb_false_iff. split.
  - apply N.eqb_neq. lia.
  - apply andb_false_iff. right. apply N.leb_gt. lia.
Qed.

Lemma digit_not_sign (d : ascii) :
  isdigit d = true -> Ascii.eqb d minus_sign = false /\ Ascii.eqb d plus_sign = false.
Proof.
  intros H. split; apply Ascii.eqb_neq; intros ->; discriminate H.
Qed.


Lemma firstn_past (a : Std.string) (x : ascii) (b : Std.string) (k : nat) :
  (List.length a < k)%nat ->
  firstn k (a ++ x :: b) = a ++ x :: firstn (k - S (List.length a)) b.
Proof.
  revert k. induction a as [|y a IH]; intros k Hk.
  - destruct k; [lia|]. cbn [app firstn List.length]. do 2 f_equal. lia.
  - destruct k; [lia|]. cbn [app firstn List.length].
    rewrite IH by (cbn [List.length] in Hk; lia). reflexivity.
Qed.

(** ** The version stage on a token prefix/major.minor *)

Section VersionToken.

Variables (p maj mn : Std.string).

Local Abbreviation vt := (version_token p maj mn).

Hypothesis Hfits : fits vt.
Hypothesis Hp_slash : mem SLASH p = false.
Hypothesis Hp_dot : mem DOT p = false.
Hypothesis Hmaj_dot : mem DOT maj = false.

Lemma token_find_slash : find vt (lit "/") = size p.
Proof.
  unfold find, version_token. change (lit "/") with [SLASH].
  change (SLASH :: maj ++ DOT :: mn) with ([SLASH] ++ maj ++ DOT :: mn).
  now rewrite (find_index_hit_head SLASH [] p _ Hp_slash).
Qed.

Lemma token_find_dot : find vt (lit ".") = size (p ++ SLASH :: maj).
Proof.
  unfold find, version_token. change (lit ".") with [DOT].
  rewrite (snoc_app p SLASH), app_assoc, <- (snoc_app p SLASH).
  change (DOT :: mn) with ([DOT] ++ mn).
  rewrite (find_index_hit_head DOT [] (p ++ SLASH :: maj) mn); [reflexivity|].
  apply mem_app_false. split; [exact Hp_dot|].
  change (SLASH :: maj) with ([SLASH] ++ maj).
  apply mem_app_false. now split.
Qed.

Lemma token_parse :
  parse_version vt
  = a <- stoul maj ;; b <- stoul mn ;;
    Ok (mkVersion (to_unsigned a) (to_unsigned b)).
Proof.
  assert (Hsz : size vt = size p + 1 + size maj + 1 + size mn).
  { unfold version_token. rewrite size_app, size_cons, size_app, size_cons. lia. }
  unfold fits in Hfits. rewrite Hsz in Hfits.
  unfold parse_version. rewrite token_find_slash, token_find_dot.
  rewrite (size_add_small (size p) 1) by lia.
  rewrite (size_add_small (size (p ++ SLASH :: maj)) 1)
    by (rewrite size_app, size_cons; lia).
  replace (size p + 1) with (size (p ++ [SLASH])) by (rewrite size_app; reflexivity).
  replace (size (p ++ SLASH :: maj) + 1) with (size ((p ++ SLASH :: maj) ++ [DOT]))
    by (rewrite (size_app _ [DOT]); reflexivity).
  assert (E1 : vt = (p ++ [SLASH]) ++ maj ++ DOT :: mn)
    by (unfold version_token; apply snoc_app).
  assert (E2 : vt = ((p ++ SLASH :: maj) ++ [DOT]) ++ mn).
  { unfold version_token. rewrite <- (snoc_app (p ++ SLASH :: maj) DOT mn).
    now rewrite <- app_assoc. }
  rewrite E1 at 1. rewrite (substr_at (p ++ [SLASH])), bind_Ok.
  rewrite E2 at 1. rewrite (substr_drop ((p ++ SLASH :: maj) ++ [DOT]) mn), bind_Ok
    by (rewrite <- E2; unfold fits; rewrite Hsz; exact Hfits).
  rewrite firstn_past.
  - now rewrite (stoul_stop maj DOT).
  - rewrite !size_app, !size_cons. unfold size. lia.
Qed.

End VersionToken.

(** ** Further facts used by the statements below *)

Lemma bind_Ok_inv {A B : Type} (r : result A) (k : A -> result B) (b : B) :
  bind r k = Ok b -> exists a, r = Ok a /\ k a = Ok b.
Proof. destruct r as [a|e]; [now exists a | discriminate]. Qed.

Lemma guard_false (buf : Std.string) :
  (16 <= List.length buf)%nat -> empty buf || (size buf <? 16) = false.
Proof.
  intros H. destruct buf; [simpl in H; lia|]. cbn [empty orb].
  apply N.ltb_ge. unfold size. lia.
Qed.

Lemma guard_true (buf : Std.string) :
  (List.length buf < 16)%nat -> empty buf || (size buf <? 16) = true.
Proof.
  intros H. apply orb_true_iff. right. apply N.ltb_lt. unfold size. lia.
Qed.


Lemma find_first_of_npos (x : ascii) (s : Std.string) :
  mem x s = false -> find_first_of s [x] = npos.
Proof.
  intros H. unfold find_first_of.
  now rewrite first_index_none by (now apply mem_false_forallb).
Qed.

Lemma find_last_of_npos (x : ascii) (s : Std.string) :
  mem x s = false -> find_last_of s [x] = npos.
Proof.
  intros H. unfold find_last_of.
  now rewrite last_index_none by (now apply mem_false_forallb).
Qed.

Lemma find_first_not_of_npos (chars s : Std.string) :
  forallb (fun c => mem c chars) s = true -> find_first_not_of s chars = npos.
Proof.
  intros H. unfold find_first_not_of.
  replace (first_index (fun c => negb (mem c chars)) s) with (@None nat);
    [reflexivity|].
  symmetry. induction s as [|c s IH]; [reflexivity|].
  cbn [forallb] in H. apply andb_true_iff in H as [Hc Hs].
  cbn [first_index]. rewrite Hc. cbn [negb]. now rewrite (IH Hs).
Qed.

(** The position [find_index] reports is a first occurrence, and the only
    one. *)
Lemma find_index_first_occurrence (pat s : Std.string) (i : nat) :
  find_index pat s = Some i ->
  first_occurrence pat s (firstn i s) (skipn (i + List.length pat) s).
Proof.
  intros H. destruct (find_index_Some pat s i H) as (h & b & E & Hl & Hmin).
  subst s i.
  rewrite firstn_length_app, app_assoc, <- List.length_app, skipn_length_app,
    <- app_assoc.
  split; [reflexivity | exact Hmin].
Qed.

Lemma first_occurrence_find_index (pat s h b : Std.string) :
  first_occurrence pat s h b -> find_index pat s = Some (List.length h).
Proof.
  intros [E Hmin]. destruct (find_index pat s) as [i|] eqn:F.
  - destruct (find_index_Some pat s i F) as (h0 & b0 & E0 & Hl & Hmin0).
    f_equal. apply Nat.le_antisymm.
    + exact (Hmin0 h b E).
    + rewrite <- Hl. exact (Hmin h0 b0 E0).
  - exfalso. exact (find_index_None pat s F h b E).
Qed.

Lemma no_occurrence_find_index (pat s : Std.string) :
  no_occurrence pat s <-> find_index pat s = None.
Proof.
  split.
  - intros H. destruct (find_index pat s) as [i|] eqn:F; [|reflexivity].
    destruct (find_index_Some pat s i F) as (h & b & E & _).
    exfalso. exact (H h b E).
  - intros F h b. exact (find_index_None pat s F h b).
Qed.

Lemma first_occurrence_find (pat s h b : Std.string) :
  first_occurrence pat s h b -> find s pat = size h.
Proof. intros H. unfold find. now rewrite (first_occurrence_find_index pat s h b H). Qed.

Lemma no_occurrence_find (pat s : Std.string) :
  no_occurrence pat s -> find s pat = npos.
Proof. intros H. unfold find. apply no_occurrence_find_index in H. now rewrite H. Qed.

(** *** Letters *)





(** *** What the constructor leaves in the caller's buffer *)

Lemma parse_consumes (buf : Std.string) (r : Request_Line) (rest : Std.string) :
  (16 <= List.length buf)%nat ->
  Request_Line_parse buf = Ok (r, rest) ->
  substr_from buf (size_add (find buf CRLF) 2) = Ok rest.
Proof.
  intros Hlen H. unfold Request_Line_parse in H.
  rewrite (guard_false buf Hlen) in H.
  do 10 (apply bind_Ok_inv in H as (? & _ & H)).
  apply bind_Ok_inv in H as (request' & Hs & H).
  injection H as _ <-. exact Hs.
Qed.

Lemma substr_after_occurrence (pat s h b : Std.string) :
  fits s -> s = h ++ pat ++ b ->
  substr_from s (size_add (size h) (size pat)) = Ok b.
Proof.
  intros Hf E. subst s.
  assert (Hs : size h + size pat <= npos).
  { unfold fits in Hf. rewrite !size_app in Hf. lia. }
  rewrite (size_add_small _ _ Hs), <- size_app.
  rewrite app_assoc in Hf |- *. now apply substr_drop.
Qed.

(** With a CRLF in the buffer, what follows the first one is left. *)
Lemma consume_through_crlf (buf : Std.string) (r : Request_Line) (rest h t : Std.string) :
  (16 <= List.length buf)%nat -> fits buf ->
  Request_Line_parse buf = Ok (r, rest) ->
  first_occurrence CRLF buf h t ->
  rest = t.
Proof.
  intros Hlen Hf H Ho. apply (parse_consumes buf r rest Hlen) in H.
  rewrite (first_occurrence_find CRLF buf h t Ho) in H.
  change 2 with (size CRLF) in H.
  rewrite (substr_after_occurrence CRLF buf h t Hf (proj1 Ho)) in H.
  now injection H.
Qed.

(** Without one, [npos + 2] wraps to 1 and the first character is dropped. *)
Lemma consume_without_crlf (buf : Std.string) (r : Request_Line) (rest : Std.string) :
  (16 <= List.length buf)%nat -> fits buf ->
  Request_Line_parse buf = Ok (r, rest) ->
  no_occurrence CRLF buf ->
  rest = tl buf.
Proof.
  intros Hlen Hf H Ho. apply (parse_consumes buf r rest Hlen) in H.
  rewrite (no_occurrence_find CRLF buf Ho), size_add_npos_2 in H.
  destruct buf as [|c s]; [simpl in Hlen; lia|].
  change (c :: s) with ([c] ++ s) in H, Hf.
  change 1 with (size [c]) in H.
  rewrite (substr_drop [c] s Hf) in H. now injection H.
Qed.

Lemma canonical_parse (m u vt rest : Std.string) :
  canonical m u vt rest ->
  Request_Line_parse (shape_request m u vt rest)
  = v <- parse_version vt ;; Ok (mkRequest_Line m u v, rest).
Proof.
  intros (Hlen & Hf & Hc & Hsp & Hcr & Hu & Hvs & Hvc).
  destruct m as [|c m']; [discriminate Hc|].
  now apply shape_parse.
Qed.

Lemma canonical_token_fits (m u p maj mn rest : Std.string) :
  canonical m u (version_token p maj mn) rest -> fits (version_token p maj mn).
Proof.
  intros (_ & Hf & _). unfold shape_request, shape_line in Hf.
  apply fits_app_l in Hf. rewrite (snoc_app m SP) in Hf. apply fits_app_r in Hf.
  rewrite (snoc_app u SP) in Hf. exact (fits_app_r _ _ Hf).
Qed.

Lemma parse_version_1_1 : parse_version (lit "HTTP/1.1") = Ok (mkVersion 1 1).
Proof. vm_compute. reflexivity. Qed.

(** *** Response *)

Lemma Response_reset_idempotent (r : Response) :
  Response_reset (Response_reset r) = Response_reset r.
Proof. reflexivity. Qed.

Lemma Response_reset_version (r : Response) :
  sl_version (status_line_ (Response_reset r)) = sl_version (status_line_ r).
Proof. reflexivity. Qed.

Lemma Response_reset_default_version (code : status_t) :
  Response_reset (Response_ctor code Version_default) = Response_default.
Proof. reflexivity. Qed.

Lemma occurrence_below_npos (pat s h b : Std.string) :
  fits s -> s = h ++ pat ++ b -> (size h =? npos) = false.
Proof.
  intros Hf ->. unfold fits in Hf. rewrite size_app in Hf.
  apply N.eqb_neq. lia.
Qed.

(** *** Printing and reading back an unsigned number *)

Lemma uint_chars_digits (d : Decimal.uint) :
  take_digits (uint_chars d) = uint_digits d
  /\ forallb isdigit (uint_chars d) = true.
Proof.
  unfold uint_chars.
  induction d as [|d [IH1 IH2]|d [IH1 IH2]|d [IH1 IH2]|d [IH1 IH2]|d [IH1 IH2]
                  |d [IH1 IH2]|d [IH1 IH2]|d [IH1 IH2]|d [IH1 IH2]|d [IH1 IH2]];
    [split; reflexivity | ..];
    cbn [NilEmpty.string_of_uint list_ascii_of_string take_digits forallb uint_digits];
    rewrite IH1, IH2; split; reflexivity.
Qed.

Lemma horner_acc (l : Decimal.uint) (acc : positive) :
  N.pos (Pos.of_uint_acc l acc)
  = fold_left (fun a d => 10 * a + d) (uint_digits l) (N.pos acc).
Proof.
  revert acc. induction l; intros acc; cbn [Pos.of_uint_acc uint_digits fold_left];
    [reflexivity | rewrite IHl; f_equal; lia ..].
Qed.

Lemma horner_uint (d : Decimal.uint) :
  N.of_uint d = digits_value (uint_digits d).
Proof.
  unfold digits_value, N.of_uint.
  induction d; cbn [Pos.of_uint uint_digits fold_left];
    [reflexivity | exact IHd | rewrite horner_acc; reflexivity ..].
Qed.

Lemma to_string_uint_chars (n : N) : to_string n = uint_chars (N.to_uint n).
Proof.
  unfold to_string, uint_chars, NilZero.string_of_uint.
  destruct (N.to_uint n) eqn:E; try reflexivity.
  pose proof (DecimalN.Unsigned.of_to n) as H. rewrite E in H.
  cbn in H. subst n. discriminate E.
Qed.

Lemma to_string_digits (n : N) : forallb isdigit (to_string n) = true.
Proof. rewrite to_string_uint_chars. apply uint_chars_digits. Qed.

Lemma to_string_value (n : N) : digits_value (take_digits (to_string n)) = n.
Proof.
  rewrite to_string_uint_chars, (proj1 (uint_chars_digits _)), <- horner_uint.
  apply DecimalN.Unsigned.of_to.
Qed.

Lemma to_string_not_nil (n : N) : to_string n <> [].
Proof.
  rewrite to_string_uint_chars. unfold uint_chars.
  destruct (N.to_uint n) eqn:E; try discriminate.
  pose proof (DecimalN.Unsigned.of_to n) as H. rewrite E in H.
  cbn in H. subst n. discriminate E.
Qed.

Lemma stoul_digits (s : Std.string) :
  s <> [] -> forallb isdigit s = true ->
  stoul s = if ULONG_MAX <? digits_value (take_digits s) then Throw out_of_range
            else Ok (digits_value (take_digits s)).
Proof.
  intros Hs Hd. destruct s as [|c s]; [congruence|].
  cbn [forallb] in Hd. apply andb_true_iff in Hd as [Hc _].
  destruct (digit_not_sign c Hc) as [Hm Hp].
  unfold stoul. cbn [skip_space]. rewrite (digit_not_space c Hc).
  cbn [take_sign]. rewrite Hm, Hp. cbn [take_digits]. rewrite Hc. reflexivity.
Qed.

Lemma stoul_to_string (n : N) : n <= ULONG_MAX -> stoul (to_string n) = Ok n.
Proof.
  intros H. rewrite (stoul_digits _ (to_string_not_nil n) (to_string_digits n)).
  rewrite to_string_value.
  now replace (ULONG_MAX <? n) with false by (symmetry; apply N.ltb_ge; exact H).
Qed.

Lemma digits_mem_false (x : ascii) (s : Std.string) :
  isdigit x = false -> forallb isdigit s = true -> mem x s = false.
Proof.
  intros Hx. induction s as [|c s IH]; [reflexivity|].
  cbn [forallb]. intros H. apply andb_true_iff in H as [Hc Hs].
  unfold mem. cbn [existsb]. apply orb_false_iff. split.
  - apply Ascii.eqb_neq. intros ->. congruence.
  - exact (IH Hs).
Qed.

Lemma Version_to_string_token (a b : N) :
  Version_to_string (mkVersion a b)
  = version_token (lit "HTTP") (to_string a) (to_string b).
Proof. reflexivity. Qed.

Lemma Request_Line_to_string_shape (m u rest : Std.string) (v : Version) :
  Request_Line_to_string (mkRequest_Line m u v) ++ rest
  = shape_request m u (Version_to_string v) rest.
Proof.
  unfold Request_Line_to_string, shape_request, shape_line.
  cbn [method_ uri_ version_]. change (lit " ") with [SP].
  rewrite <- !app_assoc. cbn [app]. rewrite <- !app_assoc. reflexivity.
Qed.

Lemma parse_version_to_string (a b : N) :
  a < UINT_MOD -> b < UINT_MOD ->
  fits (Version_to_string (mkVersion a b)) ->
  parse_version (Version_to_string (mkVersion a b)) = Ok (mkVersion a b).
Proof.
  intros Ha Hb Hf. rewrite Version_to_string_token in Hf |- *.
  assert (Hu : UINT_MOD <= ULONG_MAX) by (vm_compute; discriminate).
  rewrite token_parse; [| exact Hf | reflexivity | reflexivity
                        | apply digits_mem_false; [reflexivity | apply to_string_digits]].
  rewrite !stoul_to_string by lia. rewrite !bind_Ok.
  unfold to_unsigned. now rewrite !N.mod_small.
Qed.

(** ** Round trip *)

(** X1: parsing what [operator std::string] prints (with anything after it)
    gives the Request_Line back and leaves what followed, as long as the
    method and the URI are tokens the constructor can find again and the
    version fields fit [unsigned]. *)
Theorem Request_Line_parse_to_string (m u rest : Std.string) (a b : N) :
  canonical m u (Version_to_string (mkVersion a b)) rest ->
  a < UINT_MOD -> b < UINT_MOD ->
  Request_Line_parse
    (Request_Line_to_string (mkRequest_Line m u (mkVersion a b)) ++ rest)
  = Ok (mkRequest_Line m u (mkVersion a b), rest).
Proof.
  intros Hc Ha Hb. rewrite Request_Line_to_string_shape.
  rewrite (canonical_parse _ _ _ _ Hc).
  rewrite (parse_version_to_string a b Ha Hb); [reflexivity|].
  rewrite Version_to_string_token in Hc |- *.
  exact (canonical_token_fits _ _ _ _ _ _ Hc).
Qed.

(** * Properties of the specification *)

(** C1: for the buffer GET /index.html HTTP/1.1 CRLF the parsing constructor
    yields method GET, uri /index.html and version (1,1), and serializing
    that Request_Line reproduces the input byte for byte. *)
Theorem Request_Line_roundtrip_index_html :
  Request_Line_parse (lit "GET /index.html HTTP/1.1" ++ CRLF)
  = Ok (mkRequest_Line method.GET (lit "/index.html") (mkVersion 1 1), [])
  /\ Request_Line_to_string
       (mkRequest_Line method.GET (lit "/index.html") (mkVersion 1 1))
     = lit "GET /index.html HTTP/1.1" ++ CRLF.
Proof. split; vm_compute; reflexivity. Qed.

(** C2: for every buffer that is empty or shorter than 16 bytes the parsing
    constructor leaves the object at its default value, method GET, uri /,
    version HTTP/1.1 (and leaves the buffer as it was). *)
Theorem Request_Line_short_buffer_default (buf : Std.string) :
  (List.length buf < 16)%nat ->
  Request_Line_parse buf = Ok (Request_Line_default, buf)
  /\ Request_Line_default = mkRequest_Line (lit "GET") (lit "/") (mkVersion 1 1).
Proof.
  intros H. split; [|reflexivity].
  unfold Request_Line_parse. now rewrite (guard_true buf H).
Qed.

Lemma Request_Line_short_buffer_default_witness :
  (List.length (lit "GET / HTTP/1.1") < 16)%nat
  /\ Request_Line_parse (lit "GET / HTTP/1.1")
     = Ok (Request_Line_default, lit "GET / HTTP/1.1").
Proof.
  assert (H : (List.length (lit "GET / HTTP/1.1") < 16)%nat) by (vm_compute; lia).
  split; [exact H|].
  exact (proj1 (Request_Line_short_buffer_default (lit "GET / HTTP/1.1") H)).
Defined.




(** C5: the parsing Response constructor searches the buffer, as the
    status-line and header stages leave it, first for CRLF CRLF and, only
    when that is absent, for the first LF LF; the body is exactly what
    follows the located separator; when neither occurs no body is attached
    and no error is raised. *)
Theorem Response_body_boundary
    (Status_line_parse : Std.string -> result (Status_line * Std.string))
    (add_headers : Message -> Std.string -> result (Message * Std.string))
    (buf : Std.string) (limit : Limit)
    (sl : Status_line) (r1 : Std.string) (m : Message) (r : Std.string) :
  Status_line_parse buf = Ok (sl, r1) ->
  add_headers (Message_ctor limit) r1 = Ok (m, r) ->
  fits r ->
  (forall h b, first_occurrence CRLFCRLF r h b ->
     Response_parse Status_line_parse add_headers buf limit
     = Ok (mkResponse (add_body m b) sl))
  /\ (no_occurrence CRLFCRLF r ->
      forall h b, first_occurrence LFLF r h b ->
        Response_parse Status_line_parse add_headers buf limit
        = Ok (mkResponse (add_body m b) sl))
  /\ (no_occurrence CRLFCRLF r -> no_occurrence LFLF r ->
      Response_parse Status_line_parse add_headers buf limit
      = Ok (mkResponse m sl)).
Proof.
  intros Hs Hh Hf.
  assert (E : Response_parse Status_line_parse add_headers buf limit
             = (let start_of_body := find r CRLFCRLF in
                if negb (start_of_body =? npos) then
                  body <- substr_from r (size_add start_of_body 4) ;;
                  Ok (mkResponse (add_body m body) sl)
                else
                  let start_of_body := find r LFLF in
                  if negb (start_of_body =? npos) then
                    body <- substr_from r (size_add start_of_body 2) ;;
                    Ok (mkResponse (add_body m body) sl)
                  else Ok (mkResponse m sl))).
  { unfold Response_parse. rewrite Hs, bind_Ok. cbn [fst snd].
    rewrite Hh, bind_Ok. reflexivity. }
  rewrite E. cbv zeta.
  repeat split.
  - intros h b Ho.
    rewrite (first_occurrence_find _ _ _ _ Ho).
    rewrite (occurrence_below_npos _ _ _ _ Hf (proj1 Ho)). cbn [negb].
    change 4 with (size CRLFCRLF).
    now rewrite (substr_after_occurrence _ _ _ _ Hf (proj1 Ho)).
  - intros Hn h b Ho.
    rewrite (no_occurrence_find _ _ Hn), N.eqb_refl. cbn [negb].
    rewrite (first_occurrence_find _ _ _ _ Ho).
    rewrite (occurrence_below_npos _ _ _ _ Hf (proj1 Ho)). cbn [negb].
    change 2 with (size LFLF).
    now rewrite (substr_after_occurrence _ _ _ _ Hf (proj1 Ho)).
  - intros Hn1 Hn2.
    now rewrite (no_occurrence_find _ _ Hn1), (no_occurrence_find _ _ Hn2), N.eqb_refl.
Qed.

Lemma Response_body_boundary_witness :
  Response_parse
    (fun s => Ok (mkStatus_line Version_default OK, s))
    (fun m s => Ok (m, s))
    (lit "HTTP/1.1 200 OK" ++ [LF] ++ lit "Content-Length: 5" ++ LFLF ++ lit "hello")
    100
  = Ok (mkResponse (add_body (Message_ctor 100) (lit "hello"))
                   (mkStatus_line Version_default OK)).
Proof.
  refine (proj1 (proj2 (Response_body_boundary
    (fun s => Ok (mkStatus_line Version_default OK, s))
    (fun m s => Ok (m, s))
    (lit "HTTP/1.1 200 OK" ++ [LF] ++ lit "Content-Length: 5" ++ LFLF ++ lit "hello")
    100
    (mkStatus_line Version_default OK)
    (lit "HTTP/1.1 200 OK" ++ [LF] ++ lit "Content-Length: 5" ++ LFLF ++ lit "hello")
    (Message_ctor 100)
    (lit "HTTP/1.1 200 OK" ++ [LF] ++ lit "Content-Length: 5" ++ LFLF ++ lit "hello")
    eq_refl eq_refl _)) _ (lit "HTTP/1.1 200 OK" ++ [LF] ++ lit "Content-Length: 5") _ _).
  - reflexivity.
  - apply no_occurrence_find_index. reflexivity.
  - exact (find_index_first_occurrence LFLF
      (lit "HTTP/1.1 200 OK" ++ [LF] ++ lit "Content-Length: 5" ++ LFLF ++ lit "hello")
      33 eq_refl).
Defined.

(** C6, at the failing input: a Response constructed with status OK and
    Version (1,0) and then reset keeps Version (1,0), so it is not equal to a
    default-constructed Response, whose version is (1,1). *)
Theorem Response_reset_keeps_version :
  Response_reset (Response_ctor OK (mkVersion 1 0))
  = mkResponse Message_default (mkStatus_line (mkVersion 1 0) OK)
  /\ Response_reset (Response_ctor OK (mkVersion 1 0)) <> Response_default.
Proof. split; [reflexivity | discriminate]. Qed.

(** C7: for every request line of the canonical shape with version token
    HTTP/1.1, whatever spaces the URI holds, the remainder after the method
    is split at the last space: the URI field is the full token and the
    version is (1,1). *)
Theorem Request_Line_uri_with_spaces (m u rest : Std.string) :
  canonical m u (lit "HTTP/1.1") rest ->
  Request_Line_parse (shape_request m u (lit "HTTP/1.1") rest)
  = Ok (mkRequest_Line m u (mkVersion 1 1), rest).
Proof.
  intros Hc. rewrite (canonical_parse _ _ _ _ Hc), parse_version_1_1.
  reflexivity.
Qed.

Lemma Request_Line_uri_with_spaces_witness :
  shape_request (lit "GET") (lit "/a b") (lit "HTTP/1.1") []
    = lit "GET /a b HTTP/1.1" ++ CRLF
  /\ Request_Line_parse (lit "GET /a b HTTP/1.1" ++ CRLF)
     = Ok (mkRequest_Line (lit "GET") (lit "/a b") (mkVersion 1 1), []).
Proof.
  split; [reflexivity|].
  apply (Request_Line_uri_with_spaces (lit "GET") (lit "/a b") []).
  unfold canonical. repeat split; first [reflexivity | vm_compute; lia].
Defined.

(** C8, at the failing input: the 24-byte buffer GET /index.html HTTP/1.1
    has no CRLF; the whole buffer is parsed as the line, and the constructor
    then removes exactly its first byte from the caller's buffer, neither the
    line nor nothing. *)
Theorem Request_Line_no_crlf_drops_one_byte :
  no_occurrence CRLF (lit "GET /index.html HTTP/1.1")
  /\ Request_Line_parse (lit "GET /index.html HTTP/1.1")
     = Ok (mkRequest_Line (lit "GET") (lit "/index.html") (mkVersion 1 1),
           lit "ET /index.html HTTP/1.1").
Proof.
  split; [apply no_occurrence_find_index|]; vm_compute; reflexivity.
Qed.

(** C10: for every buffer of at least 16 bytes made only of the trimmed
    characters (space, tab, vertical tab, form feed), [find_first_not_of]
    returns [npos], [substr] is called with it and the constructor raises
    the out-of-range error. *)
Theorem Request_Line_all_whitespace_out_of_range (buf : Std.string) :
  (16 <= List.length buf)%nat -> fits buf ->
  forallb (fun c => mem c trim_chars) buf = true ->
  find_first_not_of buf trim_chars = npos
  /\ Request_Line_parse buf = Throw out_of_range.
Proof.
  intros Hlen Hf Hw.
  assert (Hn : find_first_not_of buf trim_chars = npos)
    by (now apply find_first_not_of_npos).
  split; [exact Hn|].
  unfold Request_Line_parse. rewrite (guard_false buf Hlen), Hn.
  unfold substr_from, substr.
  replace (size buf <? npos) with true by (symmetry; apply N.ltb_lt; exact Hf).
  reflexivity.
Qed.

Lemma Request_Line_all_whitespace_out_of_range_witness :
  Request_Line_parse (lit "   " ++ [HT; VT; FF] ++ lit "          ")
  = Throw out_of_range.
Proof.
  apply (Request_Line_all_whitespace_out_of_range
           (lit "   " ++ [HT; VT; FF] ++ lit "          ")).
  - vm_compute. lia.
  - reflexivity.
  - reflexivity.
Defined.

(** * Further properties of the code *)

(** ** The stages of the request-line constructor *)

(** Past the guard the constructor is: trim, isolate the line, read the
    fields from the line, advance the buffer. *)
Lemma parse_stages (buf : Std.string) :
  (16 <= List.length buf)%nat ->
  Request_Line_parse buf
  = start <- substr_from buf (find_first_not_of buf trim_chars) ;;
    rl <- substr start 0 (find start CRLF) ;;
    r <- Request_Line_tokens rl ;;
    request' <- substr_from buf (size_add (find buf CRLF) 2) ;;
    Ok (r, request').
Proof.
  intros Hlen. unfold Request_Line_parse. rewrite (guard_false buf Hlen).
  destruct (substr_from buf _) as [start|e]; [|reflexivity]. rewrite !bind_Ok.
  destruct (substr start 0 _) as [rl|e]; [|reflexivity]. rewrite !bind_Ok.
  unfold Request_Line_tokens.
  destruct (substr rl 0 _) as [method|e]; [|reflexivity]. rewrite !bind_Ok.
  destruct (substr_from rl _) as [rl1|e]; [|reflexivity]. rewrite !bind_Ok.
  destruct (substr rl1 0 _) as [uri|e]; [|reflexivity]. rewrite !bind_Ok.
  destruct (substr_from rl1 _) as [rl2|e]; [|reflexivity]. rewrite !bind_Ok.
  unfold parse_version.
  destruct (substr rl2 _ _) as [major|e]; [|reflexivity]. rewrite !bind_Ok.
  destruct (substr_from rl2 _) as [minor|e]; [|reflexivity]. rewrite !bind_Ok.
  destruct (stoul major) as [maj|e]; [|reflexivity]. rewrite !bind_Ok.
  destruct (stoul minor) as [min|e]; reflexivity.
Qed.

Lemma find_index_skip (p : ascii) (pat ws s : Std.string) :
  mem p ws = false ->
  find_index (p :: pat) (ws ++ s)
  = option_map (fun i => (List.length ws + i)%nat) (find_index (p :: pat) s).
Proof.
  induction ws as [|c ws IH]; intros H.
  - cbn [app List.length]. now destruct (find_index (p :: pat) s).
  - apply mem_cons_false in H as [Hc Hs].
    rewrite <- app_comm_cons, find_index_eq. cbn [starts_with].
    apply Ascii.eqb_neq in Hc. rewrite Hc. cbn [andb].
    rewrite (IH Hs). now destruct (find_index (p :: pat) s).
Qed.

Lemma trim_chars_no_CR (ws : Std.string) :
  forallb (fun c => mem c trim_chars) ws = true -> mem CR ws = false.
Proof.
  induction ws as [|c ws IH]; [reflexivity|].
  cbn [forallb]. intros H. apply andb_true_iff in H as [Hc Hs].
  unfold mem at 1. cbn [existsb]. apply orb_false_iff. split.
  - apply Ascii.eqb_neq. intros <-. discriminate Hc.
  - exact (IH Hs).
Qed.

Lemma find_first_not_of_skip (ws s : Std.string) :
  forallb (fun c => mem c trim_chars) ws = true ->
  s <> [] -> not_trim_led s = true ->
  find_first_not_of (ws ++ s) trim_chars = size ws.
Proof.
  intros Hw Hs Hl. destruct s as [|c s]; [congruence|].
  cbn [not_trim_led] in Hl. unfold find_first_not_of.
  rewrite first_index_hit; [reflexivity | | exact Hl].
  clear -Hw. induction ws as [|x ws IH]; [reflexivity|].
  cbn [forallb] in *. apply andb_true_iff in Hw as [Hx Hw].
  now rewrite Hx, (IH Hw).
Qed.

(** ** The fields of an isolated line *)

Section Tokens.

Variables (m u vt : Std.string).

Hypothesis Hm : mem SP m = false.
Hypothesis Hvt : mem SP vt = false.

(** X4: the first space ends the method and the last space starts the
    version token; everything between them, spaces included, is the URI. *)
Lemma tokens_two_spaces :
  fits (m ++ SP :: u ++ SP :: vt) ->
  Request_Line_tokens (m ++ SP :: u ++ SP :: vt)
  = v <- parse_version vt ;; Ok (mkRequest_Line m u v).
Proof.
  intros Hf.
  assert (Hr : fits (u ++ SP :: vt)).
  { rewrite (snoc_app m SP) in Hf. exact (fits_app_r _ _ Hf). }
  assert (Hfm : size m + 1 <= npos).
  { unfold fits in Hf. rewrite size_app, size_cons in Hf. lia. }
  assert (Hfu : size u + 1 <= npos).
  { unfold fits in Hr. rewrite size_app, size_cons in Hr. lia. }
  unfold Request_Line_tokens.
  replace (find_first_of (m ++ SP :: u ++ SP :: vt) [SP]) with (size m).
  2:{ unfold find_first_of. rewrite first_index_hit; [reflexivity | | reflexivity].
      now apply mem_false_forallb. }
  rewrite (substr_prefix m), bind_Ok.
  rewrite (size_add_small (size m) 1 Hfm).
  replace (size m + 1) with (size (m ++ [SP])) by (rewrite size_app; reflexivity).
  rewrite (snoc_app m SP).
  rewrite (substr_drop (m ++ [SP])), bind_Ok by (rewrite <- snoc_app; exact Hf).
  replace (find_last_of (u ++ SP :: vt) [SP]) with (size u).
  2:{ unfold find_last_of. rewrite last_index_hit; [reflexivity | reflexivity |].
      now apply mem_false_forallb. }
  rewrite (substr_prefix u), bind_Ok.
  rewrite (size_add_small (size u) 1 Hfu).
  replace (size u + 1) with (size (u ++ [SP])) by (rewrite size_app; reflexivity).
  rewrite (snoc_app u SP).
  rewrite (substr_drop (u ++ [SP])), bind_Ok by (rewrite <- snoc_app; exact Hr).
  reflexivity.
Qed.

(** X5: a line with a single space is not refused: what follows the space
    is the URI and is also read as the version token. *)
Lemma tokens_one_space :
  fits (m ++ SP :: vt) ->
  Request_Line_tokens (m ++ SP :: vt)
  = v <- parse_version vt ;; Ok (mkRequest_Line m vt v).
Proof.
  intros Hf.
  assert (Hr : fits vt).
  { rewrite (snoc_app m SP) in Hf. exact (fits_app_r _ _ Hf). }
  assert (Hfm : size m + 1 <= npos).
  { unfold fits in Hf. rewrite size_app, size_cons in Hf. lia. }
  unfold Request_Line_tokens.
  replace (find_first_of (m ++ SP :: vt) [SP]) with (size m).
  2:{ unfold find_first_of. rewrite first_index_hit; [reflexivity | | reflexivity].
      now apply mem_false_forallb. }
  rewrite (substr_prefix m), bind_Ok.
  rewrite (size_add_small (size m) 1 Hfm).
  replace (size m + 1) with (size (m ++ [SP])) by (rewrite size_app; reflexivity).
  rewrite (snoc_app m SP).
  rewrite (substr_drop (m ++ [SP])), bind_Ok by (rewrite <- snoc_app; exact Hf).
  rewrite (find_last_of_npos SP vt Hvt), (substr_all vt Hr), bind_Ok.
  rewrite size_add_npos_1. unfold substr_from.
  rewrite (substr_all vt Hr), bind_Ok. reflexivity.
Qed.

(** X6: a line without a space is the method, the URI and the version token
    at once. *)
Lemma tokens_no_space :
  fits vt ->
  Request_Line_tokens vt
  = v <- parse_version vt ;; Ok (mkRequest_Line vt vt v).
Proof.
  intros Hr. unfold Request_Line_tokens.
  rewrite (find_first_of_npos SP vt Hvt), (substr_all vt Hr), bind_Ok.
  rewrite size_add_npos_1. unfold substr_from.
  rewrite (substr_all vt Hr), bind_Ok.
  rewrite (find_last_of_npos SP vt Hvt), (substr_all vt Hr), bind_Ok.
  rewrite size_add_npos_1, (substr_all vt Hr), bind_Ok. reflexivity.
Qed.

End Tokens.

(** ** Framing: what is trimmed, what is the line, what is left *)

Lemma find_index_CRLF_line (line rest : Std.string) :
  find_index CRLF line = None ->
  find_index CRLF (line ++ CRLF ++ rest) = Some (List.length line).
Proof.
  induction line as [|c l IH]; intros H.
  - reflexivity.
  - rewrite find_index_eq in H.
    destruct (starts_with CRLF (c :: l)) eqn:E; [discriminate H|].
    destruct (find_index CRLF l) as [i|] eqn:F; [discriminate H|].
    rewrite <- app_comm_cons, find_index_eq, (IH eq_refl).
    replace (starts_with CRLF (c :: l ++ CRLF ++ rest)) with false; [reflexivity|].
    symmetry. unfold CRLF in *. cbn [starts_with] in *.
    destruct (Ascii.eqb CR c); [|reflexivity]. cbn [andb] in *.
    destruct l as [|x l']; [reflexivity|].
    cbn [app]. destruct (Ascii.eqb LF x); [discriminate E | reflexivity].
Qed.

Lemma line_start_led (line rest : Std.string) :
  not_trim_led line = true ->
  line ++ CRLF ++ rest <> [] /\ not_trim_led (line ++ CRLF ++ rest) = true.
Proof.
  intros H. destruct line as [|c l]; [split; [discriminate | reflexivity]|].
  split; [discriminate | exact H].
Qed.

(** X2: leading trim characters are skipped, the line is what precedes the
    first CRLF, the fields depend on that line alone, and the buffer is left
    with what follows the CRLF. *)
Lemma parse_framed (ws line rest : Std.string) :
  (16 <= List.length (ws ++ line ++ CRLF ++ rest))%nat ->
  fits (ws ++ line ++ CRLF ++ rest) ->
  forallb (fun c => mem c trim_chars) ws = true ->
  not_trim_led line = true ->
  no_occurrence CRLF line ->
  Request_Line_parse (ws ++ line ++ CRLF ++ rest)
  = r <- Request_Line_tokens line ;; Ok (r, rest).
Proof.
  intros Hlen Hf Hw Hl Hn.
  destruct (line_start_led line rest Hl) as [Hne Hled].
  apply no_occurrence_find_index in Hn.
  assert (Hfind : find (line ++ CRLF ++ rest) CRLF = size line).
  { unfold find. now rewrite (find_index_CRLF_line line rest Hn). }
  assert (Hfind' : find (ws ++ line ++ CRLF ++ rest) CRLF = size (ws ++ line)).
  { unfold find, CRLF at 1.
    rewrite (find_index_skip CR [LF] ws _ (trim_chars_no_CR ws Hw)).
    fold CRLF. rewrite (find_index_CRLF_line line rest Hn). cbn [option_map to_size_t].
    unfold size. now rewrite List.length_app. }
  assert (Hb : ws ++ line ++ CRLF ++ rest = ((ws ++ line) ++ CRLF) ++ rest)
    by (now rewrite <- !app_assoc).
  assert (Hs : size (ws ++ line) + 2 <= npos).
  { unfold fits in Hf. rewrite Hb, !size_app in Hf. rewrite size_app.
    change (size CRLF) with 2 in Hf. lia. }
  rewrite (parse_stages _ Hlen).
  rewrite (find_first_not_of_skip ws _ Hw Hne Hled).
  rewrite (substr_drop ws _ Hf), bind_Ok.
  rewrite Hfind, (substr_prefix line), bind_Ok.
  rewrite Hfind', (size_add_small _ 2 Hs).
  replace (size (ws ++ line) + 2) with (size ((ws ++ line) ++ CRLF))
    by (rewrite (size_app _ CRLF); reflexivity).
  replace (substr_from (ws ++ line ++ CRLF ++ rest) (size ((ws ++ line) ++ CRLF)))
    with (@Ok Std.string rest)
    by (rewrite Hb; symmetry; apply substr_drop; rewrite <- Hb; exact Hf).
  destruct (Request_Line_tokens line); reflexivity.
Qed.

(** X3: without a CRLF the rest of the buffer after the trim is the line,
    and the buffer is left without its first byte ([npos + 2] wraps to 1). *)
Lemma parse_unterminated (ws line : Std.string) :
  (16 <= List.length (ws ++ line))%nat ->
  fits (ws ++ line) ->
  forallb (fun c => mem c trim_chars) ws = true ->
  line <> [] -> not_trim_led line = true ->
  no_occurrence CRLF line ->
  Request_Line_parse (ws ++ line)
  = r <- Request_Line_tokens line ;; Ok (r, tl (ws ++ line)).
Proof.
  intros Hlen Hf Hw Hne Hl Hn.
  apply no_occurrence_find_index in Hn.
  assert (Hfind' : find (ws ++ line) CRLF = npos).
  { unfold find, CRLF at 1.
    rewrite (find_index_skip CR [LF] ws _ (trim_chars_no_CR ws Hw)).
    fold CRLF. now rewrite Hn. }
  rewrite (parse_stages _ Hlen).
  rewrite (find_first_not_of_skip ws _ Hw Hne Hl).
  rewrite (substr_drop ws _ Hf), bind_Ok.
  unfold find at 1. rewrite Hn. cbn [to_size_t].
  rewrite (substr_all line (fits_app_r _ _ Hf)), bind_Ok.
  rewrite Hfind', size_add_npos_2.
  replace (substr_from (ws ++ line) 1) with (@Ok Std.string (tl (ws ++ line))).
  - destruct (Request_Line_tokens line); reflexivity.
  - destruct (ws ++ line) as [|c s] eqn:E; [simpl in Hlen; lia|].
    change (c :: s) with ([c] ++ s) in Hf |- *. change 1 with (size [c]).
    symmetry. exact (substr_drop [c] s Hf).
Qed.

(** ** The method never holds a space *)

Lemma firstn_before_first (x : ascii) (s : Std.string) (i n : nat) :
  first_index (fun c => mem c [x]) s = Some i -> (n <= i)%nat ->
  mem x (firstn n s) = false.
Proof.
  revert i n. induction s as [|c s IH]; intros i n H Hn; [discriminate H|].
  cbn [first_index] in H. rewrite mem_single in H.
  destruct (Ascii.eqb c x) eqn:E.
  - injection H as <-. replace n with 0%nat by lia. reflexivity.
  - destruct (first_index (fun c0 => mem c0 [x]) s) as [j|] eqn:F; [|discriminate H].
    injection H as <-. destruct n as [|n]; [reflexivity|].
    cbn [firstn]. unfold mem. cbn [existsb].
    rewrite Ascii.eqb_sym, E. cbn [orb]. apply (IH j n eq_refl). lia.
Qed.

Lemma firstn_without (x : ascii) (s : Std.string) (n : nat) :
  first_index (fun c => mem c [x]) s = None -> mem x (firstn n s) = false.
Proof.
  revert n. induction s as [|c s IH]; intros n H; [now destruct n|].
  cbn [first_index] in H. rewrite mem_single in H.
  destruct (Ascii.eqb c x) eqn:E; [discriminate H|].
  destruct (first_index (fun c0 => mem c0 [x]) s) eqn:F; [discriminate H|].
  destruct n as [|n]; [reflexivity|].
  cbn [firstn]. unfold mem. cbn [existsb].
  rewrite Ascii.eqb_sym, E. cbn [orb]. exact (IH n eq_refl).
Qed.

Lemma substr_find_first_of (x : ascii) (s t : Std.string) :
  substr s 0 (find_first_of s [x]) = Ok t -> mem x t = false.
Proof.
  unfold substr. destruct (size s <? 0); [discriminate|].
  intros H. injection H as <-. cbn [skipn N.to_nat].
  unfold find_first_of.
  destruct (first_index (fun c => mem c [x]) s) as [i|] eqn:F; cbn [to_size_t].
  - apply (firstn_before_first x s i _ F). lia.
  - now apply firstn_without.
Qed.

Lemma tokens_method_no_space (rl : Std.string) (r : Request_Line) :
  Request_Line_tokens rl = Ok r -> mem SP (method_ r) = false.
Proof.
  unfold Request_Line_tokens. intros H.
  apply bind_Ok_inv in H as (method & Hm & H).
  do 4 (apply bind_Ok_inv in H as (? & _ & H)).
  injection H as <-. cbn [method_]. exact (substr_find_first_of SP rl method Hm).
Qed.

(** ** Numbers in the version token *)

Lemma stoul_printed_then (a : N) (j : Std.string) :
  not_digit_led j = true -> stoul (to_string a ++ j) = stoul (to_string a).
Proof.
  intros Hj. destruct j as [|x r]; [now rewrite app_nil_r|].
  cbn [not_digit_led] in Hj. apply negb_true_iff in Hj.
  pose proof (to_string_not_nil a) as Hne.
  pose proof (to_string_digits a) as Hd.
  destruct (to_string a) as [|c s]; [congruence|].
  cbn [forallb] in Hd. apply andb_true_iff in Hd as [Hc _].
  destruct (digit_not_sign c Hc) as [Hm Hp].
  unfold stoul. cbn [app skip_space]. rewrite (digit_not_space c Hc).
  cbn [take_sign]. rewrite Hm, Hp.
  change (c :: s ++ x :: r) with ((c :: s) ++ x :: r).
  now rewrite (take_digits_stop (c :: s) x r Hj).
Qed.

Lemma stoul_overflow (a : N) :
  ULONG_MAX < a -> stoul (to_string a) = Throw out_of_range.
Proof.
  intros H. rewrite (stoul_digits _ (to_string_not_nil a) (to_string_digits a)).
  rewrite to_string_value.
  now replace (ULONG_MAX <? a) with true by (symmetry; apply N.ltb_lt; exact H).
Qed.

Lemma printed_no_dot (a : N) (j : Std.string) :
  mem DOT j = false -> mem DOT (to_string a ++ j) = false.
Proof.
  intros H. apply mem_app_false. split; [|exact H].
  apply digits_mem_false; [reflexivity | apply to_string_digits].
Qed.

Lemma parse_printed (m u rest : Std.string) (a b : N) :
  canonical m u (Version_to_string (mkVersion a b)) rest ->
  a < UINT_MOD -> b < UINT_MOD ->
  Request_Line_parse
    (Request_Line_to_string (mkRequest_Line m u (mkVersion a b)) ++ rest)
  = Ok (mkRequest_Line m u (mkVersion a b), rest).
Proof.
  intros Hc Ha Hb. rewrite Request_Line_to_string_shape.
  rewrite (canonical_parse _ _ _ _ Hc).
  rewrite (parse_version_to_string a b Ha Hb); [reflexivity|].
  rewrite Version_to_string_token in Hc |- *.
  exact (canonical_token_fits _ _ _ _ _ _ Hc).
Qed.

(** Discharges [canonical] and the like on closed strings. *)
Ltac closed_shape :=
  unfold canonical, positional;
  repeat split; first [reflexivity | vm_compute; lia | vm_compute; reflexivity].

(** ** Properties of the request line *)

Lemma Request_Line_parse_to_string_witness :
  Request_Line_parse
    (Request_Line_to_string
       (mkRequest_Line (lit "POST") (lit "/a b/c") (mkVersion 12 345))
     ++ lit "Host: x" ++ CRLF)
  = Ok (mkRequest_Line (lit "POST") (lit "/a b/c") (mkVersion 12 345),
        lit "Host: x" ++ CRLF).
Proof.
  apply (Request_Line_parse_to_string (lit "POST") (lit "/a b/c")
           (lit "Host: x" ++ CRLF) 12 345); [|reflexivity|reflexivity].
  closed_shape.
Defined.

Lemma parse_framed_witness :
  Request_Line_parse
    ((lit "  " ++ [HT]) ++ lit "GET /x HTTP/1.0" ++ CRLF ++ lit "Host: a" ++ CRLF)
  = r <- Request_Line_tokens (lit "GET /x HTTP/1.0") ;;
    Ok (r, lit "Host: a" ++ CRLF).
Proof.
  apply (parse_framed (lit "  " ++ [HT]) (lit "GET /x HTTP/1.0")
           (lit "Host: a" ++ CRLF)).
  - vm_compute. lia.
  - reflexivity.
  - reflexivity.
  - reflexivity.
  - apply no_occurrence_find_index. reflexivity.
Defined.

Lemma parse_unterminated_witness :
  Request_Line_parse ([SP; SP] ++ lit "GET /index.html HTTP/1.1")
  = r <- Request_Line_tokens (lit "GET /index.html HTTP/1.1") ;;
    Ok (r, tl ([SP; SP] ++ lit "GET /index.html HTTP/1.1")).
Proof.
  apply (parse_unterminated [SP; SP] (lit "GET /index.html HTTP/1.1")).
  - vm_compute. lia.
  - reflexivity.
  - reflexivity.
  - discriminate.
  - reflexivity.
  - apply no_occurrence_find_index. reflexivity.
Defined.

Lemma tokens_two_spaces_witness :
  Request_Line_tokens (lit "GET" ++ SP :: lit "/a b c" ++ SP :: lit "HTTP/1.0")
  = v <- parse_version (lit "HTTP/1.0") ;;
    Ok (mkRequest_Line (lit "GET") (lit "/a b c") v).
Proof.
  apply (tokens_two_spaces (lit "GET") (lit "/a b c") (lit "HTTP/1.0"));
    reflexivity.
Defined.

Lemma tokens_one_space_witness :
  Request_Line_tokens (lit "GET" ++ SP :: lit "HTTP/1.1")
  = v <- parse_version (lit "HTTP/1.1") ;;
    Ok (mkRequest_Line (lit "GET") (lit "HTTP/1.1") v).
Proof.
  apply (tokens_one_space (lit "GET") (lit "HTTP/1.1")); reflexivity.
Defined.

Lemma tokens_no_space_witness :
  Request_Line_tokens (lit "HTTP/1.1")
  = v <- parse_version (lit "HTTP/1.1") ;;
    Ok (mkRequest_Line (lit "HTTP/1.1") (lit "HTTP/1.1") v).
Proof.
  apply (tokens_no_space (lit "HTTP/1.1")); reflexivity.
Defined.

(** X7: the version numbers are read up to the first character that is not a
    digit, whatever the prefix before the slash is, and are reduced modulo
    2^32 when they are stored. *)
Theorem Request_Line_version_numbers
    (m u p ja jb rest : Std.string) (a b : N) :
  canonical m u (version_token p (to_string a ++ ja) (to_string b ++ jb)) rest ->
  mem SLASH p = false -> mem DOT p = false -> mem DOT ja = false ->
  not_digit_led ja = true -> not_digit_led jb = true ->
  a <= ULONG_MAX -> b <= ULONG_MAX ->
  Request_Line_parse
    (shape_request m u (version_token p (to_string a ++ ja) (to_string b ++ jb)) rest)
  = Ok (mkRequest_Line m u (mkVersion (a mod UINT_MOD) (b mod UINT_MOD)), rest).
Proof.
  intros Hc Hps Hpd Hjd Hja Hjb Ha Hb.
  rewrite (canonical_parse _ _ _ _ Hc).
  rewrite (token_parse p _ _ (canonical_token_fits _ _ _ _ _ _ Hc) Hps Hpd
             (printed_no_dot a ja Hjd)).
  rewrite (stoul_printed_then a ja Hja), (stoul_printed_then b jb Hjb).
  now rewrite (stoul_to_string a Ha), (stoul_to_string b Hb).
Qed.

Lemma Request_Line_version_numbers_witness :
  shape_request (lit "GET") (lit "/")
    (version_token (lit "FTP") (to_string 4294967297 ++ lit "x")
       (to_string 1 ++ lit "y")) []
  = lit "GET / FTP/4294967297x.1y" ++ CRLF
  /\ Request_Line_parse (lit "GET / FTP/4294967297x.1y" ++ CRLF)
     = Ok (mkRequest_Line (lit "GET") (lit "/") (mkVersion 1 1), []).
Proof.
  split; [reflexivity|].
  apply (Request_Line_version_numbers (lit "GET") (lit "/") (lit "FTP")
           (lit "x") (lit "y") [] 4294967297 1);
    try reflexivity; try (vm_compute; discriminate).
  closed_shape.
Defined.

(** X8: a version number above ULONG_MAX makes the constructor throw
    [out_of_range]. *)
Theorem Request_Line_version_overflow
    (m u p rest : Std.string) (a b : N) :
  canonical m u (version_token p (to_string a) (to_string b)) rest ->
  mem SLASH p = false -> mem DOT p = false ->
  ULONG_MAX < a \/ ULONG_MAX < b ->
  Request_Line_parse
    (shape_request m u (version_token p (to_string a) (to_string b)) rest)
  = Throw out_of_range.
Proof.
  intros Hc Hps Hpd Hov.
  rewrite (canonical_parse _ _ _ _ Hc).
  rewrite (token_parse p _ _ (canonical_token_fits _ _ _ _ _ _ Hc) Hps Hpd
             (digits_mem_false DOT _ eq_refl (to_string_digits a))).
  destruct (N.le_gt_cases a ULONG_MAX) as [Ha | Ha].
  - destruct Hov as [Hov | Hov]; [lia|].
    now rewrite (stoul_to_string a Ha), bind_Ok, (stoul_overflow b Hov).
  - now rewrite (stoul_overflow a Ha).
Qed.

Lemma Request_Line_version_overflow_witness :
  Request_Line_parse
    (shape_request (lit "GET") (lit "/")
       (version_token (lit "HTTP") (to_string 1) (to_string 18446744073709551616)) [])
  = Throw out_of_range.
Proof.
  apply (Request_Line_version_overflow (lit "GET") (lit "/") (lit "HTTP") [] 1
           18446744073709551616).
  - closed_shape.
  - reflexivity.
  - reflexivity.
  - right. reflexivity.
Defined.

(** X9: whatever the buffer, the method the constructor yields holds no
    space. *)
Theorem Request_Line_method_has_no_space
    (buf : Std.string) (r : Request_Line) (rest : Std.string) :
  Request_Line_parse buf = Ok (r, rest) -> mem SP (get_method r) = false.
Proof.
  intros H. destruct (Nat.lt_ge_cases (List.length buf) 16) as [Hs | Hl].
  - unfold Request_Line_parse in H. rewrite (guard_true buf Hs) in H.
    injection H as <- _. reflexivity.
  - rewrite (parse_stages buf Hl) in H.
    do 2 (apply bind_Ok_inv in H as (? & _ & H)).
    apply bind_Ok_inv in H as (r' & Ht & H).
    apply bind_Ok_inv in H as (? & _ & H).
    injection H as <- _. exact (tokens_method_no_space _ _ Ht).
Qed.

Lemma Request_Line_method_has_no_space_witness :
  mem SP (get_method (mkRequest_Line (lit "GET") (lit "/a b") (mkVersion 1 1)))
  = false.
Proof.
  apply (Request_Line_method_has_no_space (lit "GET /a b HTTP/1.1" ++ CRLF)
           (mkRequest_Line (lit "GET") (lit "/a b") (mkVersion 1 1)) []).
  vm_compute. reflexivity.
Defined.

(** X10: what the three setters store is what the getters return after the
    object is printed and the print is parsed, whatever the object held
    before. *)
Theorem Request_Line_set_then_parse
    (r0 : Request_Line) (m u rest : Std.string) (a b : N) :
  canonical m u (Version_to_string (mkVersion a b)) rest ->
  a < UINT_MOD -> b < UINT_MOD ->
  exists r,
    Request_Line_parse
      (Request_Line_to_string
         (set_version (set_uri (set_method r0 m) u) (mkVersion a b)) ++ rest)
    = Ok (r, rest)
    /\ get_method r = m /\ get_uri r = u /\ get_version r = mkVersion a b.
Proof.
  intros Hc Ha Hb. exists (mkRequest_Line m u (mkVersion a b)).
  split; [|repeat split].
  change (set_version (set_uri (set_method r0 m) u) (mkVersion a b))
    with (mkRequest_Line m u (mkVersion a b)).
  exact (parse_printed m u rest a b Hc Ha Hb).
Qed.

Lemma Request_Line_set_then_parse_witness :
  exists r,
    Request_Line_parse
      (Request_Line_to_string
         (set_version (set_uri (set_method Request_Line_default (lit "DELETE"))
                         (lit "/items/7")) (mkVersion 1 0)) ++ [])
    = Ok (r, [])
    /\ get_method r = lit "DELETE" /\ get_uri r = lit "/items/7"
    /\ get_version r = mkVersion 1 0.
Proof.
  apply (Request_Line_set_then_parse Request_Line_default (lit "DELETE")
           (lit "/items/7") [] 1 0); [|reflexivity|reflexivity].
  closed_shape.
Defined.

(** X11: two printed request lines in one buffer are parsed one after the other:
    the first call leaves the buffer at the second line. *)
Theorem Request_Line_parse_twice
    (m1 u1 m2 u2 rest : Std.string) (a1 b1 a2 b2 : N) :
  canonical m1 u1 (Version_to_string (mkVersion a1 b1))
    (Request_Line_to_string (mkRequest_Line m2 u2 (mkVersion a2 b2)) ++ rest) ->
  canonical m2 u2 (Version_to_string (mkVersion a2 b2)) rest ->
  a1 < UINT_MOD -> b1 < UINT_MOD -> a2 < UINT_MOD -> b2 < UINT_MOD ->
  (x <- Request_Line_parse
          (Request_Line_to_string (mkRequest_Line m1 u1 (mkVersion a1 b1))
           ++ Request_Line_to_string (mkRequest_Line m2 u2 (mkVersion a2 b2))
           ++ rest) ;;
   y <- Request_Line_parse (snd x) ;;
   Ok (fst x, fst y, snd y))
  = Ok (mkRequest_Line m1 u1 (mkVersion a1 b1),
        mkRequest_Line m2 u2 (mkVersion a2 b2), rest).
Proof.
  intros Hc1 Hc2 Ha1 Hb1 Ha2 Hb2.
  rewrite (parse_printed m1 u1 _ a1 b1 Hc1 Ha1 Hb1), bind_Ok. cbn [fst snd].
  now rewrite (parse_printed m2 u2 rest a2 b2 Hc2 Ha2 Hb2).
Qed.

Lemma Request_Line_parse_twice_witness :
  (x <- Request_Line_parse
          (Request_Line_to_string (mkRequest_Line (lit "GET") (lit "/a") (mkVersion 1 1))
           ++ Request_Line_to_string (mkRequest_Line (lit "PUT") (lit "/b") (mkVersion 1 0))
           ++ lit "tail") ;;
   y <- Request_Line_parse (snd x) ;;
   Ok (fst x, fst y, snd y))
  = Ok (mkRequest_Line (lit "GET") (lit "/a") (mkVersion 1 1),
        mkRequest_Line (lit "PUT") (lit "/b") (mkVersion 1 0), lit "tail").
Proof.
  apply (Request_Line_parse_twice (lit "GET") (lit "/a") (lit "PUT") (lit "/b")
           (lit "tail") 1 1 1 0); try reflexivity; closed_shape.
Defined.

(** ** Properties of the response *)




Lemma set_status_codes_keep (codes : list status_t) (r : Response) :
  message (fold_left set_status_code codes r) = message r
  /\ sl_version (status_line_ (fold_left set_status_code codes r))
     = sl_version (status_line_ r).
Proof.
  revert r. induction codes as [|c codes IH]; intros r; [split; reflexivity|].
  cbn [fold_left]. destruct (IH (set_status_code r c)) as [H1 H2].
  now rewrite H1, H2.
Qed.

(** X15: a Response built by the status-line constructor and then given any
    sequence of status codes is, after [reset], equal to a
    default-constructed Response exactly when its version is the default
    version. *)
Theorem Response_reset_default_iff
    (code : status_t) (version : Version) (codes : list status_t) :
  Response_reset (fold_left set_status_code codes (Response_ctor code version))
    = Response_default
  <-> version = Version_default.
Proof.
  destruct (set_status_codes_keep codes (Response_ctor code version)) as [Hm Hv].
  set (r := fold_left set_status_code codes (Response_ctor code version)) in *.
  change (Response_reset r)
    with (mkResponse (Message_reset (message r))
            (mkStatus_line (sl_version (status_line_ r)) OK)).
  rewrite Hm, Hv. cbn [Response_ctor message status_line_ sl_version].
  split.
  - intros H. injection H as H. exact H.
  - intros ->. reflexivity.
Qed.

(** X16: [res << (h1 then h2)] is [(res << h1) << h2], an exception in the first
    part keeping the second from running. *)
Theorem Response_append_app
    (add_header : Message -> Std.string -> Std.string -> Message * option exn)
    (res : Response) (h1 h2 : Header_set) :
  Response_append add_header res (h1 ++ h2)
  = match Response_append add_header res h1 with
    | (res', Some e) => (res', Some e)
    | (res', None) => Response_append add_header res' h2
    end.
Proof.
  revert res. induction h1 as [|f h1 IH]; intros res; [reflexivity|].
  cbn [app Response_append].
  destruct (Response_add_header add_header res (fst f) (snd f)) as [res' [e|]];
    [reflexivity | apply IH].
Qed.

(** ** No index out of range beyond the trim *)

Lemma first_index_lt (p : ascii -> bool) (s : Std.string) (i : nat) :
  first_index p s = Some i -> (i < List.length s)%nat.
Proof.
  revert i. induction s as [|c s IH]; intros i H; [discriminate H|].
  cbn [first_index] in H. destruct (p c).
  - injection H as <-. cbn [List.length]. lia.
  - destruct (first_index p s) as [j|]; [|discriminate H].
    injection H as <-. specialize (IH j eq_refl). cbn [List.length]. lia.
Qed.

Lemma last_index_lt (p : ascii -> bool) (s : Std.string) (i : nat) :
  last_index p s = Some i -> (i < List.length s)%nat.
Proof.
  revert i. induction s as [|c s IH]; intros i H; [discriminate H|].
  cbn [last_index] in H. destruct (last_index p s) as [j|].
  - injection H as <-. specialize (IH j eq_refl). cbn [List.length]. lia.
  - destruct (p c); [|discriminate H]. injection H as <-. cbn [List.length]. lia.
Qed.

Lemma find_index_bound (pat s : Std.string) (i : nat) :
  find_index pat s = Some i -> (i + List.length pat <= List.length s)%nat.
Proof.
  intros H. destruct (find_index_Some pat s i H) as (h & b & -> & <- & _).
  rewrite !List.length_app. lia.
Qed.

Lemma first_index_exists (p : ascii -> bool) (s : Std.string) :
  existsb p s = true -> exists i, first_index p s = Some i.
Proof.
  induction s as [|c s IH]; [discriminate|].
  cbn [existsb first_index]. destruct (p c); [now exists 0%nat|].
  cbn [orb]. intros H. destruct (IH H) as [i ->]. now exists (S i).
Qed.

Lemma substr_in_range (s : Std.string) (pos count : size_t) :
  pos <= size s -> exists t, substr s pos count = Ok t /\ size t <= size s.
Proof.
  intros H. unfold substr.
  replace (size s <? pos) with false by (symmetry; apply N.ltb_ge; exact H).
  eexists. split; [reflexivity|].
  unfold size. rewrite List.length_firstn, List.length_skipn. lia.
Qed.

Lemma substr_past_index (s : Std.string) (o : option nat) (count : size_t) :
  fits s ->
  (forall i, o = Some i -> (i < List.length s)%nat) ->
  exists t, substr s (size_add (to_size_t o) 1) count = Ok t /\ size t <= size s.
Proof.
  intros Hf Ho. apply substr_in_range. unfold fits in Hf.
  destruct o as [i|]; cbn [to_size_t].
  - specialize (Ho i eq_refl). rewrite size_add_small; unfold size in *; lia.
  - rewrite size_add_npos_1. lia.
Qed.

Lemma substr_past_crlf (buf : Std.string) :
  fits buf -> 1 <= size buf ->
  exists rest, substr_from buf (size_add (find buf CRLF) 2) = Ok rest.
Proof.
  intros Hf H1. unfold fits in Hf. unfold substr_from, find.
  destruct (find_index CRLF buf) as [i|] eqn:Hi; cbn [to_size_t].
  - apply find_index_bound in Hi. change (List.length CRLF) with 2%nat in Hi.
    destruct (substr_in_range buf (size_add (N.of_nat i) 2) npos) as (t & E & _);
      [|now exists t].
    rewrite size_add_small; unfold size in *; lia.
  - rewrite size_add_npos_2.
    destruct (substr_in_range buf 1 npos) as (t & E & _); [exact H1 | now exists t].
Qed.

(** X12: on a buffer that passes the guard and holds a character the trim does
    not remove, each of the nine [substr] calls is in range: the constructor
    comes down to the two [stoul] conversions of the texts it cut out, and
    fails only there. *)
Theorem Request_Line_fails_only_in_stoul (buf : Std.string) :
  (16 <= List.length buf)%nat -> fits buf ->
  existsb (fun c => negb (mem c trim_chars)) buf = true ->
  exists start rl method rl1 uri rl2 major minor rest,
    substr_from buf (find_first_not_of buf trim_chars) = Ok start
    /\ substr start 0 (find start CRLF) = Ok rl
    /\ substr rl 0 (find_first_of rl [SP]) = Ok method
    /\ substr_from rl (size_add (find_first_of rl [SP]) 1) = Ok rl1
    /\ substr rl1 0 (find_last_of rl1 [SP]) = Ok uri
    /\ substr_from rl1 (size_add (find_last_of rl1 [SP]) 1) = Ok rl2
    /\ substr rl2 (size_add (find rl2 (lit "/")) 1) (find rl2 (lit ".")) = Ok major
    /\ substr_from rl2 (size_add (find rl2 (lit ".")) 1) = Ok minor
    /\ substr_from buf (size_add (find buf CRLF) 2) = Ok rest
    /\ Request_Line_parse buf
       = maj <- stoul major ;;
         min <- stoul minor ;;
         Ok (mkRequest_Line method uri
               (mkVersion (to_unsigned maj) (to_unsigned min)), rest).
Proof.
  intros Hlen Hf Hex.
  assert (Hsz : 1 <= size buf) by (unfold size; lia).
  destruct (first_index_exists _ _ Hex) as [i0 Hi0].
  destruct (substr_in_range buf (find_first_not_of buf trim_chars) npos)
    as (start & E1 & Hs).
  { unfold find_first_not_of. rewrite Hi0. cbn [to_size_t].
    apply first_index_lt in Hi0. unfold size. lia. }
  fold (substr_from buf (find_first_not_of buf trim_chars)) in E1.
  destruct (substr_in_range start 0 (find start CRLF)) as (rl & E2 & Hrl); [lia|].
  assert (Hrlf : fits rl) by (unfold fits in *; lia).
  destruct (substr_in_range rl 0 (find_first_of rl [SP])) as (method & E3 & _); [lia|].
  destruct (substr_past_index rl (first_index (fun c => mem c [SP]) rl) npos Hrlf)
    as (rl1 & E4 & Hrl1); [intros i Hi; exact (first_index_lt _ _ _ Hi)|].
  fold (find_first_of rl [SP]) in E4.
  fold (substr_from rl (size_add (find_first_of rl [SP]) 1)) in E4.
  assert (Hrl1f : fits rl1) by (unfold fits in *; lia).
  destruct (substr_in_range rl1 0 (find_last_of rl1 [SP])) as (uri & E5 & _); [lia|].
  destruct (substr_past_index rl1 (last_index (fun c => mem c [SP]) rl1) npos Hrl1f)
    as (rl2 & E6 & Hrl2); [intros i Hi; exact (last_index_lt _ _ _ Hi)|].
  fold (find_last_of rl1 [SP]) in E6.
  fold (substr_from rl1 (size_add (find_last_of rl1 [SP]) 1)) in E6.
  assert (Hrl2f : fits rl2) by (unfold fits in *; lia).
  destruct (substr_past_index rl2 (find_index (lit "/") rl2) (find rl2 (lit ".")) Hrl2f)
    as (major & E7 & _).
  { intros i Hi. apply find_index_bound in Hi.
    change (List.length (lit "/")) with 1%nat in Hi. lia. }
  fold (find rl2 (lit "/")) in E7.
  destruct (substr_past_index rl2 (find_index (lit ".") rl2) npos Hrl2f)
    as (minor & E8 & _).
  { intros i Hi. apply find_index_bound in Hi.
    change (List.length (lit ".")) with 1%nat in Hi. lia. }
  fold (find rl2 (lit ".")) in E8.
  fold (substr_from rl2 (size_add (find rl2 (lit ".")) 1)) in E8.
  destruct (substr_past_crlf buf Hf Hsz) as (rest & E9).
  exists start, rl, method, rl1, uri, rl2, major, minor, rest.
  repeat (split; [assumption|]).
  unfold Request_Line_parse. rewrite (guard_false buf Hlen).
  rewrite E1, bind_Ok, E2, bind_Ok, E3, bind_Ok, E4, bind_Ok, E5, bind_Ok,
    E6, bind_Ok, E7, bind_Ok, E8, bind_Ok, E9.
  destruct (stoul major); [|reflexivity]. rewrite !bind_Ok.
  destruct (stoul minor); reflexivity.
Qed.

Lemma Request_Line_fails_only_in_stoul_witness :
  exists start rl method rl1 uri rl2 major minor rest,
    substr_from ([SP] ++ lit "GET /index.html HTTP/1.x" ++ [CR])
      (find_first_not_of ([SP] ++ lit "GET /index.html HTTP/1.x" ++ [CR]) trim_chars)
    = Ok start
    /\ substr start 0 (find start CRLF) = Ok rl
    /\ substr rl 0 (find_first_of rl [SP]) = Ok method
    /\ substr_from rl (size_add (find_first_of rl [SP]) 1) = Ok rl1
    /\ substr rl1 0 (find_last_of rl1 [SP]) = Ok uri
    /\ substr_from rl1 (size_add (find_last_of rl1 [SP]) 1) = Ok rl2
    /\ substr rl2 (size_add (find rl2 (lit "/")) 1) (find rl2 (lit ".")) = Ok major
    /\ substr_from rl2 (size_add (find rl2 (lit ".")) 1) = Ok minor
    /\ substr_from ([SP] ++ lit "GET /index.html HTTP/1.x" ++ [CR])
         (size_add (find ([SP] ++ lit "GET /index.html HTTP/1.x" ++ [CR]) CRLF) 2)
       = Ok rest
    /\ Request_Line_parse ([SP] ++ lit "GET /index.html HTTP/1.x" ++ [CR])
       = maj <- stoul major ;;
         min <- stoul minor ;;
         Ok (mkRequest_Line method uri
               (mkVersion (to_unsigned maj) (to_unsigned min)), rest).
Proof.
  apply (Request_Line_fails_only_in_stoul
           ([SP] ++ lit "GET /index.html HTTP/1.x" ++ [CR])).
  - vm_compute. lia.
  - reflexivity.
  - reflexivity.
Defined.

(** ** The buffer only loses a prefix *)

(** X13: whatever the constructor leaves in the caller's buffer is a suffix of
    what it was given, and past the guard at least one byte is removed. *)
Theorem Request_Line_leaves_suffix
    (buf : Std.string) (r : Request_Line) (rest : Std.string) :
  fits buf ->
  Request_Line_parse buf = Ok (r, rest) ->
  exists h, buf = h ++ rest /\ ((16 <= List.length buf)%nat -> h <> []).
Proof.
  intros Hf H. destruct (Nat.lt_ge_cases (List.length buf) 16) as [Hs | Hl].
  - unfold Request_Line_parse in H. rewrite (guard_true buf Hs) in H.
    injection H as _ <-. exists []. split; [reflexivity | lia].
  - apply (parse_consumes buf r rest Hl) in H.
    unfold substr_from, substr in H.
    destruct (size buf <? size_add (find buf CRLF) 2) eqn:Hpos; [discriminate H|].
    apply N.ltb_ge in Hpos. injection H as <-.
    unfold fits in Hf.
    replace (N.min npos (size buf - size_add (find buf CRLF) 2))
      with (size buf - size_add (find buf CRLF) 2) by lia.
    set (pos := size_add (find buf CRLF) 2) in *.
    assert (Hp : 1 <= pos).
    { unfold pos, find. destruct (find_index CRLF buf) as [i|] eqn:Hi; cbn [to_size_t].
      - apply find_index_bound in Hi. change (List.length CRLF) with 2%nat in Hi.
        rewrite size_add_small; unfold size in *; lia.
      - rewrite size_add_npos_2. lia. }
    exists (firstn (N.to_nat pos) buf). split.
    + replace (firstn (N.to_nat (size buf - pos)) (skipn (N.to_nat pos) buf))
        with (skipn (N.to_nat pos) buf)
        by (symmetry; apply firstn_all2; rewrite List.length_skipn;
            unfold size; lia).
      symmetry. apply firstn_skipn.
    + intros _ E. apply (f_equal (@List.length ascii)) in E.
      rewrite List.length_firstn in E. cbn [List.length] in E.
      unfold size in Hpos. lia.
Qed.

Lemma Request_Line_leaves_suffix_witness :
  exists h,
    lit "GET / HTTP/1.1" ++ CRLF ++ lit "Host: a" = h ++ lit "Host: a"
    /\ ((16 <= List.length (lit "GET / HTTP/1.1" ++ CRLF ++ lit "Host: a"))%nat
        -> h <> []).
Proof.
  apply (Request_Line_leaves_suffix
           (lit "GET / HTTP/1.1" ++ CRLF ++ lit "Host: a")
           (mkRequest_Line (lit "GET") (lit "/") (mkVersion 1 1))
           (lit "Host: a")).
  - reflexivity.
  - vm_compute. reflexivity.
Defined.

(** * The guard, the version texts and the body boundary *)

(** ** The guard *)

Lemma parse_removes_prefix
    (buf : Std.string) (r : Request_Line) (rest : Std.string) :
  fits buf -> (16 <= List.length buf)%nat ->
  Request_Line_parse buf = Ok (r, rest) ->
  (List.length rest < List.length buf)%nat.
Proof.
  intros Hf Hl H. apply (parse_consumes buf r rest Hl) in H.
  unfold substr_from, substr in H.
  destruct (size buf <? size_add (find buf CRLF) 2) eqn:Hpos; [discriminate H|].
  apply N.ltb_ge in Hpos. injection H as <-.
  assert (Hp : 1 <= size_add (find buf CRLF) 2).
  { unfold find. destruct (find_index CRLF buf) as [i|] eqn:Hi; cbn [to_size_t].
    - apply find_index_bound in Hi. change (List.length CRLF) with 2%nat in Hi.
      unfold fits in Hf. rewrite size_add_small; unfold size in *; lia.
    - rewrite size_add_npos_2. lia. }
  rewrite List.length_firstn, List.length_skipn. unfold size in *. lia.
Qed.

(** C9: the 16-byte guard is strict.  The silent default, the default object
    with the buffer left alone, is the outcome exactly for the buffers
    shorter than 16 bytes; from 16 bytes on a normal return has always
    advanced the buffer; every well-formed request that fills the buffer,
    the 16-byte GET / HTTP/1.1 CRLF among them, is parsed from the input,
    and PUT / HTTP/2.0 CRLF, 16 bytes as well, gives its own fields. *)
Theorem Request_Line_guard_strict (buf : Std.string) :
  fits buf ->
  (Request_Line_parse buf = Ok (Request_Line_default, buf)
   <-> (List.length buf < 16)%nat)
  /\ ((16 <= List.length buf)%nat ->
      forall r rest, Request_Line_parse buf = Ok (r, rest) -> rest <> buf)
  /\ (forall m u vt,
        canonical m u vt [] ->
        Request_Line_parse (shape_request m u vt [])
        = v <- parse_version vt ;; Ok (mkRequest_Line m u v, []))
  /\ List.length (lit "GET / HTTP/1.1" ++ CRLF) = 16%nat
  /\ Request_Line_parse (lit "GET / HTTP/1.1" ++ CRLF)
     = Ok (mkRequest_Line (lit "GET") (lit "/") (mkVersion 1 1), [])
  /\ Request_Line_parse (lit "PUT / HTTP/2.0" ++ CRLF)
     = Ok (mkRequest_Line (lit "PUT") (lit "/") (mkVersion 2 0), []).
Proof.
  intros Hf.
  assert (Hadv : (16 <= List.length buf)%nat ->
                 forall r rest, Request_Line_parse buf = Ok (r, rest) -> rest <> buf).
  { intros Hl r rest H E. apply (parse_removes_prefix buf r rest Hf Hl) in H.
    subst rest. lia. }
  split; [|split; [exact Hadv|]].
  - split.
    + intros H. destruct (Nat.lt_ge_cases (List.length buf) 16) as [Hs | Hl];
        [exact Hs|].
      exfalso. exact (Hadv Hl _ _ H eq_refl).
    + intros Hs. unfold Request_Line_parse. now rewrite (guard_true buf Hs).
  - split; [intros m u vt Hc; exact (canonical_parse m u vt [] Hc)|].
    repeat split; vm_compute; reflexivity.
Qed.

Lemma Request_Line_guard_strict_witness :
  (Request_Line_parse (lit "GET /a HTTP/1.1" ++ CRLF)
   = Ok (Request_Line_default, lit "GET /a HTTP/1.1" ++ CRLF)
   <-> (List.length (lit "GET /a HTTP/1.1" ++ CRLF) < 16)%nat)
  /\ ((16 <= List.length (lit "GET /a HTTP/1.1" ++ CRLF))%nat ->
      forall r rest,
        Request_Line_parse (lit "GET /a HTTP/1.1" ++ CRLF) = Ok (r, rest) ->
        rest <> lit "GET /a HTTP/1.1" ++ CRLF)
  /\ List.length (shape_request (lit "PUT") (lit "/") (lit "HTTP/1.0") []) = 16%nat
  /\ Request_Line_parse (shape_request (lit "PUT") (lit "/") (lit "HTTP/1.0") [])
     = v <- parse_version (lit "HTTP/1.0") ;;
       Ok (mkRequest_Line (lit "PUT") (lit "/") v, []).
Proof.
  assert (Hf : fits (lit "GET /a HTTP/1.1" ++ CRLF)) by reflexivity.
  split; [|split; [|split; [reflexivity|]]].
  - exact (proj1 (Request_Line_guard_strict (lit "GET /a HTTP/1.1" ++ CRLF) Hf)).
  - exact (proj1 (proj2 (Request_Line_guard_strict (lit "GET /a HTTP/1.1" ++ CRLF) Hf))).
  - apply (proj1 (proj2 (proj2
             (Request_Line_guard_strict (lit "GET /a HTTP/1.1" ++ CRLF) Hf)))).
    closed_shape.
Defined.

(** ** The version texts *)






(** ** The body boundary behind a consumed status line *)

Lemma Status_line_of_headerless :
  Status_line_of_buffer (lit "HTTP/1.1 200 OK" ++ CRLFCRLF ++ lit "body")
  = Ok (mkStatus_line (mkVersion 1 1) 200, CRLF ++ lit "body").
Proof. vm_compute. reflexivity. Qed.

(** Whatever the header stage is, as long as it returns normally and leaves
    a suffix of the buffer it received, the body that follows the status
    line directly is not attached. *)
Lemma headerless_body_any_header_stage
    (add_headers : Message -> Std.string -> result (Message * Std.string))
    (limit : Limit) (m : Message) (r : Std.string) :
  add_headers (Message_ctor limit) (CRLF ++ lit "body") = Ok (m, r) ->
  (exists h, CRLF ++ lit "body" = h ++ r) ->
  Response_parse Status_line_of_buffer add_headers
    (lit "HTTP/1.1 200 OK" ++ CRLFCRLF ++ lit "body") limit
  = Ok (mkResponse m (mkStatus_line (mkVersion 1 1) 200)).
Proof.
  intros Hh [h E]. unfold Response_parse.
  rewrite Status_line_of_headerless, bind_Ok. cbn [fst snd].
  rewrite Hh, bind_Ok. cbn [fst snd]. cbv zeta.
  assert (Hn : find r CRLFCRLF = npos /\ find r LFLF = npos).
  { vm_compute in E.
    do 6 (destruct h as [|? h];
          [cbn [app] in E; subst r; split; reflexivity
          | cbn [app] in E; injection E as _ E]).
    destruct h; [|discriminate E]. cbn [app] in E. subst r. split; reflexivity. }
  destruct Hn as [-> ->]. reflexivity.
Qed.

(** C5, the claim as stated fails.  The response buffer HTTP/1.1 200 OK CRLF
    CRLF body holds CRLF CRLF, first at offset 15, followed by body.  The
    status-line constructor takes its line and the CRLF, a header stage that
    finds no field in front of the blank line leaves the message and the
    buffer CRLF body as they are, and the search in that buffer finds
    neither separator: the Response has no body. *)
Lemma Response_headerless_body_not_attached :
  first_occurrence CRLFCRLF (lit "HTTP/1.1 200 OK" ++ CRLFCRLF ++ lit "body")
    (lit "HTTP/1.1 200 OK") (lit "body")
  /\ Status_line_of_buffer (lit "HTTP/1.1 200 OK" ++ CRLFCRLF ++ lit "body")
     = Ok (mkStatus_line (mkVersion 1 1) 200, CRLF ++ lit "body")
  /\ Response_parse Status_line_of_buffer (fun m s => Ok (m, s))
       (lit "HTTP/1.1 200 OK" ++ CRLFCRLF ++ lit "body") 100
     = Ok (mkResponse (Message_ctor 100) (mkStatus_line (mkVersion 1 1) 200))
  /\ message_body (Message_ctor 100) = [].
Proof.
  split; [|split; [exact Status_line_of_headerless | split; [|reflexivity]]].
  - exact (find_index_first_occurrence CRLFCRLF
             (lit "HTTP/1.1 200 OK" ++ CRLFCRLF ++ lit "body") 15 eq_refl).
  - apply (headerless_body_any_header_stage (fun m s => Ok (m, s)) 100
             (Message_ctor 100) (CRLF ++ lit "body")).
    + reflexivity.
    + now exists [].
Qed.
